(** * PRIME trading agents: a shallow embedding and its properties

    The development follows the three agents of the repository,
    [InitialOrderAgent] (the ladder that seeds the book),
    [ZI_market_order_agent] (directional market orders) and
    [MomentumAgent] (moving-average crossover).

    Conventions.
    - Prices and volumes are Python integers: [Z] for prices, [N] for
      resting volumes.  Python and numpy floats are read as exact
      rationals ([Q]).
    - A handler of the source mutates [self] and calls the order-entry
      interface of the base class.  Here a handler takes the agent record
      and returns the new record together with the list of interface calls
      it made, in the order it made them.
    - What the base class [TradingAgent] keeps for the agent (market hours,
      the closed flag, the recorded close price, the last known quotes) and
      what the oracle answers are inputs of the handlers. *)

From Stdlib Require Import ZArith NArith QArith Qround List Finite Bool String Lia Lqa.
From Stdlib Require Import Sorted Permutation.
Import ListNotations.

Local Open Scope Z_scope.

(** ** Numbers *)

Module Numeric.

(** [np.round(x)] and Python's [round(x)]: to the nearest integer, a tie
    goes to the even neighbour. *)
Definition round_half_even (q : Q) : Z :=
  let f := Qfloor q in
  match Qcompare (q - inject_Z f) (1 # 2) with
  | Lt => f
  | Gt => f + 1
  | Eq => if Z.even f then f else f + 1
  end.

Definition np_round := round_half_even.
Definition py_round := round_half_even.

(** [np.round(x, -1)]: to the nearest multiple of ten. *)
Definition np_round_tens (q : Q) : Z := 10 * round_half_even (q / 10).

(** [np.ceil]. *)
Definition np_ceil (q : Q) : Z := Qceiling q.

(** Largest [r] with [r ^ k <= n], searched upwards from [r]. *)
Fixpoint iroot_from (fuel : nat) (k n r : N) : N :=
  match fuel with
  | O => r
  | S fuel' => if ((r + 1) ^ k <=? n)%N then iroot_from fuel' k n (r + 1)%N else r
  end.

(** [np.round(d ** 0.35)] for a volume [d].  With [y = d ^ (7/20)], the
    integer [floor (2 y)] is the twentieth root of [2^20 * d^7], and
    [round y = floor ((floor (2 y) + 1) / 2)]; a tie [2 y = 2 k + 1] would
    need [2^20 * d^7 = (2 k + 1)^20], an even number equal to an odd one. *)
Definition depth_size (d : N) : Z :=
  Z.of_N ((iroot_from (N.to_nat (2 * d + 1)) 20 (2 ^ 20 * d ^ 7) 0 + 1) / 2)%N.

End Numeric.

(** ** The interface shared by the agents *)

(** The agent's phase, [self.state]. *)
Inductive phase : Type :=
| INACTIVE
| AWAITING_WAKEUP
| AWAITING_SPREAD
| ACTIVE.

(** Calls into the base class made by the agents. *)
Inductive action : Type :=
| SetWakeup (requested : Z)
| GetCurrentSpread
| PlaceLimitOrder (quantity : Z) (is_buy_order : bool) (limit_price : Z)
| PlaceMarketOrder (quantity : Z) (is_buy_order : bool)
| CancelOrder.

(** The fields of the base class read by [wakeup] and [receiveMessage],
    as they are once the parent handler has run. *)
Record market : Type := {
  mkt_open : bool;            (* self.mkt_open is set *)
  mkt_close : bool;           (* self.mkt_close is set *)
  mkt_closed : bool;          (* self.mkt_closed *)
  has_close_price : bool      (* self.symbol in self.daily_close_price *)
}.

(** Market hours known, market open. *)
Definition trading_hours : market :=
  {| mkt_open := true; mkt_close := true; mkt_closed := false;
     has_close_price := false |}.

(** [getKnownBidAsk(symbol)]: best bid and ask, [None] on an empty side. *)
Record snapshot : Type := {
  bid : option Z;
  bidsize : N;
  ask : option Z;
  asksize : N
}.

(** Python exceptions that escape a handler. *)
Inductive exn : Type :=
| TypeError
| IndexError
| ValueError.

Inductive result (A : Type) : Type :=
| Ok (a : A)
| Raise (e : exn).
Arguments Ok {A} a.
Arguments Raise {A} e.

Definition action_eq_dec (x y : action) : {x = y} + {x <> y}.
Proof.
  decide equality; try apply Z.eq_dec; apply Bool.bool_dec.
Defined.

Definition is_spread_request (x : action) : bool :=
  match x with GetCurrentSpread => true | _ => false end.

Definition is_set_wakeup (x : action) : bool :=
  match x with SetWakeup _ => true | _ => false end.

Definition is_order (x : action) : bool :=
  match x with
  | PlaceLimitOrder _ _ _ | PlaceMarketOrder _ _ => true
  | _ => false
  end.

Definition is_cancel (x : action) : bool :=
  match x with CancelOrder => true | _ => false end.

(** What one delivery finds around the agent: the base-class fields, the
    value of the parent's [wakeup], the known quotes and the oracle's
    answer should the handler ask for it. *)
Record inputs : Type := {
  view : market;
  can_trade : bool;
  quotes : snapshot;
  oracle_price : Q
}.

(** The two stimuli the kernel delivers. *)
Inductive event : Type :=
| Wakeup (currentTime : Z) (i : inputs)
| Message (currentTime : Z) (msg : string) (i : inputs).

(** [range(lo, hi)]. *)
Definition range (lo hi : Z) : list Z :=
  map (fun k => lo + Z.of_nat k) (seq 0 (Z.to_nat (hi - lo))).

(** ** InitialOrderAgent: the ladder *)

Module Ladder.

Record agent : Type := {
  fill : bool;
  cancel : bool;
  first_run : bool;
  second_run : bool;
  trading : bool;
  state : phase;
  order_size : Z;
  exact_type : bool          (* type(self) == InitialOrderAgent *)
}.

Definition set_state (a : agent) (p : phase) : agent :=
  {| fill := fill a; cancel := cancel a; first_run := first_run a;
     second_run := second_run a; trading := trading a; state := p;
     order_size := order_size a; exact_type := exact_type a |}.

Definition set_cancel (a : agent) (b : bool) : agent :=
  {| fill := fill a; cancel := b; first_run := first_run a;
     second_run := second_run a; trading := trading a; state := state a;
     order_size := order_size a; exact_type := exact_type a |}.

Definition set_trading (a : agent) (b : bool) : agent :=
  {| fill := fill a; cancel := cancel a; first_run := first_run a;
     second_run := second_run a; trading := b; state := state a;
     order_size := order_size a; exact_type := exact_type a |}.

Definition set_first_run (a : agent) (b : bool) : agent :=
  {| fill := fill a; cancel := cancel a; first_run := b;
     second_run := second_run a; trading := trading a; state := state a;
     order_size := order_size a; exact_type := exact_type a |}.

Definition set_second_run (a : agent) (b : bool) : agent :=
  {| fill := fill a; cancel := cancel a; first_run := first_run a;
     second_run := b; trading := trading a; state := state a;
     order_size := order_size a; exact_type := exact_type a |}.

Definition set_order_size (a : agent) (q : Z) : agent :=
  {| fill := fill a; cancel := cancel a; first_run := first_run a;
     second_run := second_run a; trading := trading a; state := state a;
     order_size := q; exact_type := exact_type a |}.

(** [__init__]. *)
Definition init (exact : bool) : agent :=
  {| fill := true; cancel := false; first_run := true; second_run := true;
     trading := false; state := AWAITING_WAKEUP; order_size := 1;
     exact_type := exact |}.

(** [getWakeFrequency], in nanoseconds. *)
Definition getWakeFrequency (a : agent) : Z * agent :=
  if first_run a then (10, set_first_run a false)
  else if second_run a then (300000000000, set_second_run a false)
  else (30000000000000, a).

(** [cancelOrders]. *)
Definition cancelOrders (a : agent) : agent * list action := (a, [CancelOrder]).

(** [wakeup]. *)
Definition wakeup (a : agent) (currentTime : Z) (m : market) : agent * list action :=
  let a := set_state a INACTIVE in
  if negb (mkt_open m) || negb (mkt_close m) then (a, [])
  else
    let a := if negb (trading a) then set_trading a true else a in
    if mkt_closed m && has_close_price m then (a, [])
    else
      let '(wake_time, a) := getWakeFrequency a in
      let acts := [SetWakeup (currentTime + wake_time)] in
      if mkt_closed m && negb (has_close_price m) then
        (set_state a AWAITING_SPREAD, acts ++ [GetCurrentSpread])
      else if cancel a && fill a then (set_state a INACTIVE, acts)
      else if cancel a then
        let '(a, cs) := cancelOrders a in
        (set_state a AWAITING_WAKEUP, acts ++ cs)
      else if fill a then
        let a := set_cancel a true in
        if exact_type a then (set_state a AWAITING_SPREAD, acts ++ [GetCurrentSpread])
        else (set_state a ACTIVE, acts)
      else (a, acts).

(** [updateEstimates]: the oracle's answer, through [np.round]. *)
Definition updateEstimates (oracle_price : Q) : Q :=
  inject_Z (Numeric.np_round oracle_price).

(** One turn of the loop of [placeOrder]. *)
Definition place_pair (p : Q) (st : agent * list action) (i : Z) : agent * list action :=
  let '(a, acts) := st in
  let a := set_order_size a (Z.min (i + 1) 5) in
  (a, acts ++ [PlaceLimitOrder (order_size a) true (Numeric.py_round p - i);
               PlaceLimitOrder (order_size a) false (Numeric.py_round p + i)]).

(** [placeOrder]. *)
Definition placeOrder (a : agent) (oracle_price : Q) : agent * list action :=
  let p := updateEstimates oracle_price in
  fold_left (place_pair p) (range 1 100) (a, []).

(** [receiveMessage]. *)
Definition receiveMessage (a : agent) (m : market) (msg : string)
    (oracle_price : Q) : agent * list action :=
  match state a with
  | AWAITING_SPREAD =>
      if String.eqb msg "QUERY_SPREAD" then
        if mkt_closed m then (a, [])
        else
          let '(a, acts) := placeOrder a oracle_price in
          (set_state a AWAITING_WAKEUP, acts)
      else (a, [])
  | _ => (a, [])
  end.

(** Delivery of one event by the kernel. *)
Definition handle (a : agent) (e : event) : result (agent * list action) :=
  match e with
  | Wakeup t i => Ok (wakeup a t (view i))
  | Message t msg i => Ok (receiveMessage a (view i) msg (oracle_price i))
  end.

End Ladder.

(** ** Random streams *)

Module Random.

(** A numpy generator, read as the sequence of variates it will hand out
    and the position reached.  Each sampling method consumes one. *)
Record RandomState : Type := {
  variates : nat -> Q;
  cursor : nat
}.

Definition draw (rs : RandomState) : Q * RandomState :=
  (variates rs (cursor rs),
   {| variates := variates rs; cursor := S (cursor rs) |}).

(** [exponential(scale)]: a standard exponential variate, scaled. *)
Definition exponential (scale : Q) (rs : RandomState) : Q * RandomState :=
  let '(x, rs) := draw rs in ((scale * x)%Q, rs).

(** [rand()]: a variate of the unit interval. *)
Definition rand (rs : RandomState) : Q * RandomState := draw rs.

(** [power(a)]: a variate of the power distribution. *)
Definition power (a : Q) (rs : RandomState) : Q * RandomState := draw rs.

(** [randint(low, high)]. *)
Definition randint (low high : Z) (rs : RandomState) : Z * RandomState :=
  let '(x, rs) := draw rs in (low + Qfloor (x * inject_Z (high - low)), rs).

(** The body shared by [ZI_market_order_agent.getOrderSize] and
    [MomentumAgent.getOrderSize].  The first draw is [np.random.power],
    from numpy's module-level generator; the second is
    [self.random_state.rand].  Returns the value stored in
    [self.order_size] and both generators. *)
Definition getOrderSize (np_random random_state : RandomState)
  : Z * RandomState * RandomState :=
  let '(x, np_random) := power (35 # 10) np_random in
  let order_size := Numeric.np_ceil (70 / x) in
  let '(i, random_state) := rand random_state in
  match Qcompare i (8 # 10) with
  | Lt => (order_size, np_random, random_state)
  | _ =>
      let order_size := if order_size <? 5 then order_size + 5 else order_size in
      (Numeric.np_round_tens (inject_Z order_size), np_random, random_state)
  end.

End Random.

(** Raising and sequencing, for the handlers that can fail. *)
Definition bind {A B : Type} (r : result A) (k : A -> result B) : result B :=
  match r with
  | Ok a => k a
  | Raise e => Raise e
  end.

Notation "x <- r ;; k" := (bind r (fun x => k))
  (at level 61, r at next level, right associativity).
Notation "' p <- r ;; k" := (bind r (fun x => let 'p := x in k))
  (at level 61, p pattern, r at next level, right associativity).

Definition Qltb (x y : Q) : bool :=
  match Qcompare x y with Lt => true | _ => false end.

Definition phase_eqb (p q : phase) : bool :=
  match p, q with
  | INACTIVE, INACTIVE | AWAITING_WAKEUP, AWAITING_WAKEUP
  | AWAITING_SPREAD, AWAITING_SPREAD | ACTIVE, ACTIVE => true
  | _, _ => false
  end.

(** ** ZI_market_order_agent: directional market orders *)

Module ZI.

Record agent : Type := {
  lambda_a : Q;
  trading : bool;
  state : phase;
  order_size : Z;
  order_count : Z;
  buy_order_count : Z;
  random_state : Random.RandomState;
  exact_type : bool          (* type(self) == ZI_market_order_agent *)
}.

Definition set_state (a : agent) (p : phase) : agent :=
  {| lambda_a := lambda_a a; trading := trading a; state := p;
     order_size := order_size a; order_count := order_count a;
     buy_order_count := buy_order_count a; random_state := random_state a;
     exact_type := exact_type a |}.

Definition set_trading (a : agent) (b : bool) : agent :=
  {| lambda_a := lambda_a a; trading := b; state := state a;
     order_size := order_size a; order_count := order_count a;
     buy_order_count := buy_order_count a; random_state := random_state a;
     exact_type := exact_type a |}.

Definition set_order_size (a : agent) (q : Z) : agent :=
  {| lambda_a := lambda_a a; trading := trading a; state := state a;
     order_size := q; order_count := order_count a;
     buy_order_count := buy_order_count a; random_state := random_state a;
     exact_type := exact_type a |}.

Definition set_counts (a : agent) (orders buys : Z) : agent :=
  {| lambda_a := lambda_a a; trading := trading a; state := state a;
     order_size := order_size a; order_count := orders;
     buy_order_count := buys; random_state := random_state a;
     exact_type := exact_type a |}.

Definition set_random_state (a : agent) (rs : Random.RandomState) : agent :=
  {| lambda_a := lambda_a a; trading := trading a; state := state a;
     order_size := order_size a; order_count := order_count a;
     buy_order_count := buy_order_count a; random_state := rs;
     exact_type := exact_type a |}.

(** [__init__]. *)
Definition init (rate : Q) (rs : Random.RandomState) (exact : bool) : agent :=
  {| lambda_a := rate; trading := false; state := AWAITING_WAKEUP;
     order_size := 1; order_count := 0; buy_order_count := 0;
     random_state := rs; exact_type := exact |}.

(** [getWakeFrequency], in nanoseconds. *)
Definition getWakeFrequency (a : agent) : Z * agent :=
  let '(delta_time, rs) := Random.exponential (1 / lambda_a a) (random_state a) in
  (Numeric.py_round delta_time, set_random_state a rs).

(** [modifyWakeFrequency]: the scaling is commented out. *)
Definition modifyWakeFrequency (current_time wakeFrequency : Z) : Z := wakeFrequency.

(** [wakeup]. *)
Definition wakeup (a : agent) (currentTime : Z) (m : market) : agent * list action :=
  let a := set_state a INACTIVE in
  if negb (mkt_open m) || negb (mkt_close m) then (a, [])
  else
    let a := if negb (trading a) then set_trading a true else a in
    if mkt_closed m && has_close_price m then (a, [])
    else
      let '(wf, a) := getWakeFrequency a in
      let wake_time := modifyWakeFrequency currentTime wf in
      let acts := [SetWakeup (currentTime + wake_time)] in
      if mkt_closed m && negb (has_close_price m) then
        (set_state a AWAITING_SPREAD, acts ++ [GetCurrentSpread])
      else if exact_type a then
        (set_state a AWAITING_SPREAD, acts ++ [GetCurrentSpread])
      else (set_state a ACTIVE, acts).

(** [updateEstimates]. *)
Definition updateEstimates (oracle_price : Q) : Q :=
  inject_Z (Numeric.np_round oracle_price).

(** [placeOrder].  [bid + ask] raises [TypeError] when a side is [None]. *)
Definition placeOrder (a : agent) (book : snapshot) (oracle_price : Q)
  : result (agent * list action) :=
  let obs_t := updateEstimates oracle_price in
  match bid book, ask book with
  | Some b, Some k =>
      let mid := (inject_Z (b + k) / 2)%Q in
      match Qcompare obs_t mid with
      | Gt =>
          let a := set_counts a (order_count a + 1) (buy_order_count a + 1) in
          let a := set_order_size a (Numeric.depth_size (asksize book)) in
          Ok (a, [PlaceMarketOrder (order_size a) true])
      | Lt =>
          let a := set_counts a (order_count a + 1) (buy_order_count a) in
          let a := set_order_size a (Numeric.depth_size (bidsize book)) in
          Ok (a, [PlaceMarketOrder (order_size a) false])
      | Eq => Ok (a, [])
      end
  | _, _ => Raise TypeError
  end.

(** [receiveMessage]. *)
Definition receiveMessage (a : agent) (m : market) (msg : string)
    (book : snapshot) (oracle_price : Q) : result (agent * list action) :=
  match state a with
  | AWAITING_SPREAD =>
      if String.eqb msg "QUERY_SPREAD" then
        if mkt_closed m then Ok (a, [])
        else
          '(a, acts) <- placeOrder a book oracle_price ;;
          Ok (set_state a AWAITING_WAKEUP, acts)
      else Ok (a, [])
  | _ => Ok (a, [])
  end.

(** [getOrderSize]. *)
Definition getOrderSize (np_random : Random.RandomState) (a : agent)
  : agent * Random.RandomState :=
  let '(size, np_random, rs) := Random.getOrderSize np_random (random_state a) in
  (set_order_size (set_random_state a rs) size, np_random).

(** Delivery of one event by the kernel. *)
Definition handle (a : agent) (e : event) : result (agent * list action) :=
  match e with
  | Wakeup t i => Ok (wakeup a t (view i))
  | Message t msg i => receiveMessage a (view i) msg (quotes i) (oracle_price i)
  end.

End ZI.

(** ** MomentumAgent: moving-average crossover *)

Module Momentum.

Record agent : Type := {
  short_duration : nat;
  long_duration : nat;
  margin : Q;
  lambda_a : Q;
  order_size : Z;
  mid_list : list Q;
  ma_short : option Z;
  ma_long : option Z;
  state : phase;
  bidvol : N;
  askvol : N;
  random_state : Random.RandomState
}.

Definition set_state (a : agent) (p : phase) : agent :=
  {| short_duration := short_duration a; long_duration := long_duration a;
     margin := margin a; lambda_a := lambda_a a; order_size := order_size a;
     mid_list := mid_list a; ma_short := ma_short a; ma_long := ma_long a;
     state := p; bidvol := bidvol a; askvol := askvol a;
     random_state := random_state a |}.

Definition set_vols (a : agent) (bv av : N) : agent :=
  {| short_duration := short_duration a; long_duration := long_duration a;
     margin := margin a; lambda_a := lambda_a a; order_size := order_size a;
     mid_list := mid_list a; ma_short := ma_short a; ma_long := ma_long a;
     state := state a; bidvol := bv; askvol := av;
     random_state := random_state a |}.

Definition set_mid_list (a : agent) (l : list Q) : agent :=
  {| short_duration := short_duration a; long_duration := long_duration a;
     margin := margin a; lambda_a := lambda_a a; order_size := order_size a;
     mid_list := l; ma_short := ma_short a; ma_long := ma_long a;
     state := state a; bidvol := bidvol a; askvol := askvol a;
     random_state := random_state a |}.

Definition set_ma_short (a : agent) (v : Z) : agent :=
  {| short_duration := short_duration a; long_duration := long_duration a;
     margin := margin a; lambda_a := lambda_a a; order_size := order_size a;
     mid_list := mid_list a; ma_short := Some v; ma_long := ma_long a;
     state := state a; bidvol := bidvol a; askvol := askvol a;
     random_state := random_state a |}.

Definition set_ma_long (a : agent) (v : Z) : agent :=
  {| short_duration := short_duration a; long_duration := long_duration a;
     margin := margin a; lambda_a := lambda_a a; order_size := order_size a;
     mid_list := mid_list a; ma_short := ma_short a; ma_long := Some v;
     state := state a; bidvol := bidvol a; askvol := askvol a;
     random_state := random_state a |}.

Definition set_order_size (a : agent) (q : Z) : agent :=
  {| short_duration := short_duration a; long_duration := long_duration a;
     margin := margin a; lambda_a := lambda_a a; order_size := q;
     mid_list := mid_list a; ma_short := ma_short a; ma_long := ma_long a;
     state := state a; bidvol := bidvol a; askvol := askvol a;
     random_state := random_state a |}.

Definition set_random_state (a : agent) (rs : Random.RandomState) : agent :=
  {| short_duration := short_duration a; long_duration := long_duration a;
     margin := margin a; lambda_a := lambda_a a; order_size := order_size a;
     mid_list := mid_list a; ma_short := ma_short a; ma_long := ma_long a;
     state := state a; bidvol := bidvol a; askvol := askvol a;
     random_state := rs |}.

(** [__init__]. *)
Definition init (min_size max_size : Z) (rate : Q) (rs : Random.RandomState)
    (short long : nat) (mrg : Q) : agent :=
  let '(size, rs) := Random.randint min_size max_size rs in
  {| short_duration := short; long_duration := long; margin := mrg;
     lambda_a := rate; order_size := size; mid_list := []; ma_short := None;
     ma_long := None; state := AWAITING_WAKEUP; bidvol := 0%N; askvol := 0%N;
     random_state := rs |}.

(** [np.cumsum]. *)
Fixpoint cumsum_from (acc : Q) (a : list Q) : list Q :=
  match a with
  | [] => []
  | x :: a' => (acc + x)%Q :: cumsum_from (acc + x)%Q a'
  end.

Definition cumsum (a : list Q) : list Q := cumsum_from 0 a.

(** [x - y] on arrays; numpy refuses shapes that do not agree. *)
Fixpoint array_sub (x y : list Q) : option (list Q) :=
  match x, y with
  | [], [] => Some []
  | u :: x', v :: y' =>
      match array_sub x' y' with
      | Some d => Some ((u - v)%Q :: d)
      | None => None
      end
  | _, _ => None
  end.

(** [ret[:-n]]; for [n = 0] this is [ret[:0]]. *)
Definition drop_last (n : nat) (ret : list Q) : list Q :=
  match n with
  | O => []
  | _ => firstn (List.length ret - n) ret
  end.

(** [ma(a, n)], the moving average by prefix sums. *)
Definition ma (a : list Q) (n : nat) : result (list Q) :=
  let ret := cumsum a in
  match array_sub (skipn n ret) (drop_last n ret) with
  | None => Raise ValueError
  | Some d =>
      let ret := firstn n ret ++ d in
      Ok (map (fun x => (x / inject_Z (Z.of_nat n))%Q) (skipn (n - 1) ret))
  end.

(** [x[-1]]. *)
Definition last_entry (x : list Q) : result Q :=
  match rev x with
  | [] => Raise IndexError
  | v :: _ => Ok v
  end.

(** [getWakeFrequency], in nanoseconds. *)
Definition getWakeFrequency (a : agent) : Z * agent :=
  let '(delta_time, rs) := Random.exponential (1 / lambda_a a) (random_state a) in
  (Numeric.py_round delta_time, set_random_state a rs).

(** [wakeup].  [can_trade] is what the parent's [wakeup] returned. *)
Definition wakeup (a : agent) (currentTime : Z) (can_trade : bool)
  : agent * list action :=
  if negb can_trade then (a, [])
  else (set_state a AWAITING_SPREAD, [GetCurrentSpread]).

(** Truth value of a quote: [None] and [0] are false. *)
Definition truthy (p : option Z) : bool :=
  match p with
  | Some v => negb (v =? 0)
  | None => false
  end.

(** The body of [if len(self.mid_list) > self.long_duration:]. *)
Definition crossover (a : agent) : result (agent * list action) :=
  let a := set_mid_list a (tl (mid_list a)) in
  s <- bind (ma (mid_list a) (short_duration a)) last_entry ;;
  let a := set_ma_short a (Numeric.np_round s) in
  l <- bind (ma (mid_list a) (long_duration a)) last_entry ;;
  let a := set_ma_long a (Numeric.np_round l) in
  if truthy (ma_short a) && truthy (ma_long a) then
    let buyorder := Numeric.depth_size (askvol a) in
    let sellorder := Numeric.depth_size (bidvol a) in
    let s := inject_Z (Numeric.np_round s) in
    let l := inject_Z (Numeric.np_round l) in
    if Qltb s (l - margin a) then Ok (a, [PlaceMarketOrder sellorder false])
    else if Qltb (l + margin a) s then Ok (a, [PlaceMarketOrder buyorder true])
    else Ok (a, [])
  else Ok (a, []).

(** The body of [if bid and ask:]. *)
Definition observe (a : agent) (book : snapshot) : result (agent * list action) :=
  match bid book, ask book with
  | Some b, Some k =>
      if truthy (bid book) && truthy (ask book) then
        let mid := (inject_Z (b + k) / 2)%Q in
        let a := set_mid_list a (mid_list a ++ [mid]) in
        if (long_duration a <? List.length (mid_list a))%nat then crossover a
        else Ok (a, [])
      else Ok (a, [])
  | _, _ => Ok (a, [])
  end.

(** [receiveMessage]. *)
Definition receiveMessage (a : agent) (currentTime : Z) (msg : string)
    (book : snapshot) : result (agent * list action) :=
  if phase_eqb (state a) AWAITING_SPREAD && String.eqb msg "QUERY_SPREAD" then
    let a := set_vols a (bidsize book) (asksize book) in
    '(a, orders) <- observe a book ;;
    let '(wf, a) := getWakeFrequency a in
    Ok (set_state a AWAITING_WAKEUP, orders ++ [SetWakeup (currentTime + wf)])
  else Ok (a, []).

(** [getOrderSize]. *)
Definition getOrderSize (np_random : Random.RandomState) (a : agent)
  : agent * Random.RandomState :=
  let '(size, np_random, rs) := Random.getOrderSize np_random (random_state a) in
  (set_order_size (set_random_state a rs) size, np_random).

(** Delivery of one event by the kernel. *)
Definition handle (a : agent) (e : event) : result (agent * list action) :=
  match e with
  | Wakeup t i => Ok (wakeup a t (can_trade i))
  | Message t msg i => receiveMessage a t msg (quotes i)
  end.

(** The mid-price that [receiveMessage] appends for the quotes [q]: none
    when a quote is missing or zero. *)
Definition quoted_mid (q : snapshot) : list Q :=
  match bid q, ask q with
  | Some b, Some k =>
      if truthy (bid q) && truthy (ask q) then [(inject_Z (b + k) / 2)%Q] else []
  | _, _ => []
  end.

(** The mid-price that the delivery of [e] appends to the window. *)
Definition sampled (a : agent) (e : event) : list Q :=
  match e with
  | Wakeup _ _ => []
  | Message _ msg i =>
      if phase_eqb (state a) AWAITING_SPREAD && String.eqb msg "QUERY_SPREAD"
      then quoted_mid (quotes i) else []
  end.

End Momentum.

(** ** Executions *)

(** The handlers every agent offers to the kernel. *)
Class Agent (A : Type) : Type := {
  phase_of : A -> phase;
  deliver : A -> event -> result (A * list action)
}.

#[export] Instance ladder_agent : Agent Ladder.agent :=
  {| phase_of := Ladder.state; deliver := Ladder.handle |}.

#[export] Instance zi_agent : Agent ZI.agent :=
  {| phase_of := ZI.state; deliver := ZI.handle |}.

#[export] Instance momentum_agent : Agent Momentum.agent :=
  {| phase_of := Momentum.state; deliver := Momentum.handle |}.

(** What an execution shows of the spread protocol. *)
Inductive obs : Type :=
| Request      (* getCurrentSpread was called *)
| Response.    (* a QUERY_SPREAD message reached the agent in AWAITING_SPREAD *)

Definition is_query (msg : string) : bool := String.eqb msg "QUERY_SPREAD".

Section Executions.

Context {A : Type} `{Agent A}.

Definition answers (a : A) (e : event) : list obs :=
  match e with
  | Wakeup _ _ => []
  | Message _ msg _ =>
      if phase_eqb (phase_of a) AWAITING_SPREAD && is_query msg then [Response]
      else []
  end.

Definition requests (acts : list action) : list obs :=
  map (fun _ => Request) (filter is_spread_request acts).

(** The protocol trace of an execution; it ends where a handler raises. *)
Fixpoint trace (a : A) (evs : list event) : list obs :=
  match evs with
  | [] => []
  | e :: evs' =>
      answers a e ++
      match deliver a e with
      | Ok (a', acts) => requests acts ++ trace a' evs'
      | Raise _ => []
      end
  end.

(** The final agent and every call made, or the exception that ended it. *)
Fixpoint run (a : A) (evs : list event) : result (A * list action) :=
  match evs with
  | [] => Ok (a, [])
  | e :: evs' =>
      '(a', acts) <- deliver a e ;;
      '(a'', acts') <- run a' evs' ;;
      Ok (a'', acts ++ acts')
  end.

End Executions.

(** No two requests without a response between them. *)
Fixpoint separated_from (pending : bool) (tr : list obs) : bool :=
  match tr with
  | [] => true
  | Request :: tr' => negb pending && separated_from true tr'
  | Response :: tr' => separated_from false tr'
  end.

Definition separated (tr : list obs) : bool := separated_from false tr.

(** Between any two wakeups a QUERY_SPREAD message is delivered. *)
Fixpoint answered_from (woke : bool) (evs : list event) : bool :=
  match evs with
  | [] => true
  | Wakeup _ _ :: evs' => negb woke && answered_from true evs'
  | Message _ msg _ :: evs' =>
      answered_from (if is_query msg then false else woke) evs'
  end.

Definition answered (evs : list event) : bool := answered_from false evs.

(** The first of [setWakeup] and [getCurrentSpread] to be called is
    [setWakeup]. *)
Fixpoint schedules_before_request (acts : list action) : bool :=
  match acts with
  | [] => false
  | SetWakeup _ :: _ => true
  | GetCurrentSpread :: _ => false
  | _ :: acts' => schedules_before_request acts'
  end.

(** The mid-prices appended to the momentum agent's window along an
    execution, oldest first. *)
Fixpoint observed (a : Momentum.agent) (evs : list event) : list Q :=
  match evs with
  | [] => []
  | e :: evs' =>
      Momentum.sampled a e ++
      match Momentum.handle a e with
      | Ok (a', _) => observed a' evs'
      | Raise _ => []
      end
  end.

(** The [n] last entries of a list. *)
Definition lastn {X : Type} (n : nat) (l : list X) : list X :=
  skipn (List.length l - n) l.


(** No order among the calls. *)
Definition no_order (acts : list action) : bool :=
  forallb (fun x => negb (is_order x)) acts.

(** ** The windowed average, computed directly *)

(** The sum of a list. *)
Definition Qsum (l : list Q) : Q := fold_right Qplus 0%Q l.

(** The arithmetic mean of [a[j], ..., a[j + n - 1]]. *)
Definition window_mean (a : list Q) (n j : nat) : Q :=
  (Qsum (firstn n (skipn j a)) / inject_Z (Z.of_nat n))%Q.

(** ** Sample agents and inputs *)

Module Scenario.

(** A generator that hands out [x] at every draw. *)
Definition stream (x : Q) : Random.RandomState :=
  {| Random.variates := fun _ => x; Random.cursor := 0 |}.

Definition book (b : option Z) (bs : N) (k : option Z) (ks : N) : snapshot :=
  {| bid := b; bidsize := bs; ask := k; asksize := ks |}.

(** Trading hours, the given quotes and oracle answer. *)
Definition during_trading (q : snapshot) (o : Q) : inputs :=
  {| view := trading_hours; can_trade := true; quotes := q; oracle_price := o |}.

Definition calm : inputs := during_trading (book (Some 99) 5 (Some 101) 7) 100.

Definition ladder : Ladder.agent := Ladder.init true.

Definition zi : ZI.agent := ZI.init (5 # 1000) (stream (1 # 2)) true.

Definition momentum : Momentum.agent :=
  Momentum.init 50 100 (5 # 100) (stream (1 # 2)) 20 40 0.

End Scenario.

(** ** Executions, continued *)

(** The inputs an event carries. *)
Definition inputs_of (e : event) : inputs :=
  match e with
  | Wakeup _ i => i
  | Message _ _ i => i
  end.

(** Once a delivery has seen the market closed, every later one sees it
    closed. *)
Fixpoint closed_for_good_from (closed : bool) (evs : list event) : bool :=
  match evs with
  | [] => true
  | e :: evs' =>
      let c := mkt_closed (view (inputs_of e)) in
      implb closed c && closed_for_good_from c evs'
  end.

Definition closed_for_good (evs : list event) : bool :=
  closed_for_good_from false evs.

(** One when a spread request is outstanding for the agent's phase. *)
Definition waiting (p : phase) : nat :=
  if phase_eqb p AWAITING_SPREAD then 1 else 0.

(** How many of the calls satisfy [f]. *)
Definition count_calls (f : action -> bool) (acts : list action) : nat :=
  List.length (filter f acts).

Definition is_buy (x : action) : bool :=
  match x with
  | PlaceLimitOrder _ b _ | PlaceMarketOrder _ b => b
  | _ => false
  end.

(** The delays returned by [k] successive calls of the ladder's
    [getWakeFrequency]. *)
Fixpoint ladder_delays (k : nat) (a : Ladder.agent) : list Z :=
  match k with
  | O => []
  | S k' =>
      let '(d, a') := Ladder.getWakeFrequency a in
      d :: ladder_delays k' a'
  end.

(** ** The private values drawn at construction *)

Module PrivateValues.

(** [random_state.normal(loc, scale, size)]: [size] variates in the order
    drawn. *)
Fixpoint normal (loc scale : Q) (size : nat) (rs : Random.RandomState)
  : list Q * Random.RandomState :=
  match size with
  | O => ([], rs)
  | S size' =>
      let '(z, rs) := Random.draw rs in
      let '(xs, rs) := normal loc scale size' rs in
      ((loc + scale * z)%Q :: xs, rs)
  end.

(** [sorted(xs, reverse=True)] on integer values. *)
Fixpoint insert_desc (x : Z) (l : list Z) : list Z :=
  match l with
  | [] => [x]
  | y :: l' => if y <=? x then x :: l else y :: insert_desc x l'
  end.

Fixpoint sorted_desc (l : list Z) : list Z :=
  match l with
  | [] => []
  | x :: l' => insert_desc x (sorted_desc l')
  end.

(** [self.theta] of [__init__], for both ZI-style agents; [scale] stands
    for [sqrt(sigma_pv)].  Returns the list and the generator after the
    draws. *)
Definition theta (scale : Q) (q_max : nat) (rs : Random.RandomState)
  : list Z * Random.RandomState :=
  let '(xs, rs) := normal 0 scale (q_max * 3) rs in
  (sorted_desc (map Numeric.np_round xs), rs).

End PrivateValues.

(** ** The life of the ladder *)

Module LadderLife.
Import Ladder.

(** What is left to place: the 198 orders as long as [cancel] is unset or
    the agent waits for a spread in an open market, nothing afterwards. *)
Definition budget (a : agent) (closed : bool) : nat :=
  if cancel a then
    if phase_eqb (state a) AWAITING_SPREAD && negb closed then 198 else 0
  else 198.

(** [fill] is set, and an agent that waits for a spread with [cancel]
    unset asked for it after the close. *)
Definition settled (a : agent) (closed : bool) : Prop :=
  fill a = true /\
  (cancel a = false -> state a = AWAITING_SPREAD -> closed = true).

End LadderLife.

(** * Properties *)

(** ** Rounding and sizing *)

Module NumericFacts.

Import Numeric.

Lemma round_half_even_inject (z : Z) : round_half_even (inject_Z z) = z.
Proof.
  unfold round_half_even. rewrite Qfloor_Z.
  assert (H : Qcompare (inject_Z z - inject_Z z) (1 # 2) = Lt)
    by (apply (proj1 (Qlt_alt _ _)); unfold Qlt; simpl; lia).
  rewrite H. reflexivity.
Qed.

Lemma iroot_from_ge (fuel : nat) (k n r : N) : (r <= iroot_from fuel k n r)%N.
Proof.
  revert r. induction fuel as [|fuel IH]; intros r; simpl.
  - lia.
  - destruct (N.leb_spec ((r + 1) ^ k) n); [specialize (IH (r + 1)%N)|]; lia.
Qed.

Lemma iroot_from_le (fuel : nat) (k n r : N) :
  (r ^ k <= n)%N -> (iroot_from fuel k n r ^ k <= n)%N.
Proof.
  revert r. induction fuel as [|fuel IH]; intros r Hr; simpl.
  - exact Hr.
  - destruct (N.leb_spec ((r + 1) ^ k) n); [apply IH|]; assumption.
Qed.

Lemma iroot_from_lt (fuel : nat) (k n r : N) :
  (n < (r + N.of_nat fuel + 1) ^ k)%N ->
  (n < (iroot_from fuel k n r + 1) ^ k)%N.
Proof.
  revert r. induction fuel as [|fuel IH]; intros r Hr; simpl.
  - replace (r + N.of_nat 0 + 1)%N with (r + 1)%N in Hr by lia. exact Hr.
  - destruct (N.leb_spec ((r + 1) ^ k) n); [|assumption].
    apply IH. replace (r + 1 + N.of_nat fuel + 1)%N
      with (r + N.of_nat (S fuel) + 1)%N by lia. exact Hr.
Qed.

Lemma depth_size_zero : depth_size 0 = 0.
Proof. reflexivity. Qed.

Lemma iroot_from_zero_pos (fuel : nat) (k n : N) :
  fuel <> O -> (1 <= n)%N -> (1 <= iroot_from fuel k n 0)%N.
Proof.
  intros Hf Hn. destruct fuel as [|fuel]; [congruence|].
  cbn [iroot_from]. rewrite N.add_0_l, N.pow_1_l.
  destruct (N.leb_spec 1 n); [|lia].
  apply iroot_from_ge.
Qed.

Lemma volume_power_pos (d : N) : (1 <= d)%N -> (1 <= 2 ^ 20 * d ^ 7)%N.
Proof.
  intros Hd.
  assert (H7 : (1 ^ 7 <= d ^ 7)%N) by (apply N.pow_le_mono_l; exact Hd).
  rewrite N.pow_1_l in H7.
  change 1%N with (1 * 1)%N at 1. apply N.mul_le_mono; [|exact H7].
  vm_compute. discriminate.
Qed.

Lemma depth_size_positive (d : N) : (1 <= d)%N -> 1 <= depth_size d.
Proof.
  intros Hd. unfold depth_size.
  pose proof (volume_power_pos d Hd) as Hn.
  pose proof (iroot_from_zero_pos (N.to_nat (2 * d + 1)) 20 _
                ltac:(lia) Hn) as G.
  set (r := iroot_from _ _ _ _) in *.
  assert (1 <= (r + 1) / 2)%N by (apply N.div_le_lower_bound; lia).
  lia.
Qed.

(** [depth_size d] is the integer nearest to [d ^ (7/20)]: doubling and
    raising to the twentieth power, [2 k - 1 <= 2 y < 2 k + 1]. *)
Lemma depth_size_nearest (d : N) :
  (1 <= d)%N ->
  (2 * depth_size d - 1) ^ 20 <= 2 ^ 20 * Z.of_N d ^ 7
    < (2 * depth_size d + 1) ^ 20.
Proof.
  intros Hd. unfold depth_size.
  pose proof (volume_power_pos d Hd) as Hn.
  assert (Hf : N.to_nat (2 * d + 1) <> O) by lia.
  assert (En : 2 ^ 20 * Z.of_N d ^ 7 = Z.of_N (2 ^ 20 * d ^ 7)).
  { rewrite N2Z.inj_mul, !N2Z.inj_pow. reflexivity. }
  rewrite En. clear En.
  assert (Hup : (2 ^ 20 * d ^ 7 < (0 + N.of_nat (N.to_nat (2 * d + 1)) + 1) ^ 20)%N).
  { rewrite N.add_0_l, N2Nat.id.
    apply N.le_lt_trans with ((2 * d) ^ 20)%N.
    - rewrite N.pow_mul_l. apply N.mul_le_mono_l.
      apply N.pow_le_mono_r; lia.
    - apply N.pow_lt_mono_l; lia. }
  set (n := (2 ^ 20 * d ^ 7)%N) in *.
  pose proof (iroot_from_zero_pos (N.to_nat (2 * d + 1)) 20 n Hf Hn) as Hr1.
  assert (H0 : (0 ^ 20 <= n)%N) by apply N.le_0_l.
  pose proof (iroot_from_le (N.to_nat (2 * d + 1)) 20 n 0 H0) as Hlo.
  pose proof (iroot_from_lt (N.to_nat (2 * d + 1)) 20 n 0 Hup) as Hhi.
  set (r := iroot_from _ _ _ _) in *.
  apply N2Z.inj_le in Hlo. apply N2Z.inj_lt in Hhi.
  rewrite N2Z.inj_pow in Hlo. rewrite N2Z.inj_pow, N2Z.inj_add in Hhi.
  rewrite N2Z.inj_div, N2Z.inj_add.
  change (Z.of_N 1) with 1 in *. change (Z.of_N 2) with 2.
  change (Z.of_N 20) with 20 in *.
  assert (Hz : 1 <= Z.of_N r) by (clear - Hr1; lia).
  set (z := Z.of_N r) in *. set (m := Z.of_N n) in *.
  assert (Hk : 2 * ((z + 1) / 2) - 1 <= z /\ z + 1 <= 2 * ((z + 1) / 2) + 1
               /\ 0 <= 2 * ((z + 1) / 2) - 1).
  { clear - Hz.
    pose proof (Z.div_mod (z + 1) 2 ltac:(lia)) as Hdm.
    pose proof (Z.mod_pos_bound (z + 1) 2 ltac:(lia)) as Hm. lia. }
  destruct Hk as (K1 & K2 & K3).
  split.
  - apply Z.le_trans with (z ^ 20); [|exact Hlo].
    apply Z.pow_le_mono_l. split; assumption.
  - apply Z.lt_le_trans with ((z + 1) ^ 20); [exact Hhi|].
    apply Z.pow_le_mono_l. split; [clear - Hz; lia | exact K2].
Qed.

End NumericFacts.

(** ** The ladder *)

Module LadderFacts.
Import Ladder.

Lemma in_range (lo hi i : Z) : In i (range lo hi) <-> lo <= i < hi.
Proof.
  unfold range. rewrite in_map_iff. split.
  - intros (k & <- & Hk). apply in_seq in Hk. lia.
  - intros Hi. exists (Z.to_nat (i - lo)). split; [lia|].
    apply in_seq. lia.
Qed.

Lemma NoDup_range (lo hi : Z) : NoDup (range lo hi).
Proof.
  unfold range. apply Injective_map_NoDup_in.
  - intros x y _ _ E. lia.
  - apply seq_NoDup.
Qed.

Lemma length_range (lo hi : Z) : List.length (range lo hi) = Z.to_nat (hi - lo).
Proof. unfold range. rewrite length_map, length_seq. reflexivity. Qed.

(** The loop of [placeOrder] only appends: the calls are the rungs of the
    ladder, one buy and one sell per offset, in the order of the range. *)
Lemma fold_place_pair (p : Q) (l : list Z) (a : agent) (acc : list action) :
  snd (fold_left (place_pair p) l (a, acc)) =
  acc ++ flat_map (fun i =>
           [PlaceLimitOrder (Z.min (i + 1) 5) true (Numeric.py_round p - i);
            PlaceLimitOrder (Z.min (i + 1) 5) false (Numeric.py_round p + i)]) l.
Proof.
  revert a acc. induction l as [|i l IH]; intros a acc; simpl.
  - rewrite app_nil_r. reflexivity.
  - rewrite IH. rewrite <- app_assoc. reflexivity.
Qed.

Lemma estimate_is_integer (oracle_price : Q) :
  Numeric.py_round (updateEstimates oracle_price) = Qfloor (updateEstimates oracle_price).
Proof.
  unfold updateEstimates, Numeric.py_round.
  rewrite NumericFacts.round_half_even_inject, Qfloor_Z. reflexivity.
Qed.

Section Rungs.

Variable c : Z.

Let rungs (l : list Z) : list action :=
  flat_map (fun i => [PlaceLimitOrder (Z.min (i + 1) 5) true (c - i);
                      PlaceLimitOrder (Z.min (i + 1) 5) false (c + i)]) l.

Lemma length_rungs (l : list Z) : List.length (rungs l) = (2 * List.length l)%nat.
Proof. induction l as [|i l IH]; simpl; [reflexivity|]. lia. Qed.

Lemma in_rungs (l : list Z) (x : action) :
  In x (rungs l) <->
  exists i, In i l /\
    (x = PlaceLimitOrder (Z.min (i + 1) 5) true (c - i) \/
     x = PlaceLimitOrder (Z.min (i + 1) 5) false (c + i)).
Proof.
  unfold rungs. rewrite in_flat_map. split.
  - intros (i & Hi & Hx). exists i. split; [exact Hi|].
    simpl in Hx. destruct Hx as [<-|[<-|[]]]; auto.
  - intros (i & Hi & Hx). exists i. split; [exact Hi|].
    simpl. destruct Hx as [->| ->]; auto.
Qed.

Lemma count_buy_absent (l : list Z) (i : Z) (q : Z) :
  ~ In i l -> count_occ action_eq_dec (rungs l) (PlaceLimitOrder q true (c - i)) = 0%nat.
Proof.
  intros Hi. apply count_occ_not_In. rewrite in_rungs.
  intros (j & Hj & [E|E]); inversion E. assert (j = i) by lia. subst. auto.
Qed.

Lemma count_sell_absent (l : list Z) (i : Z) (q : Z) :
  ~ In i l -> count_occ action_eq_dec (rungs l) (PlaceLimitOrder q false (c + i)) = 0%nat.
Proof.
  intros Hi. apply count_occ_not_In. rewrite in_rungs.
  intros (j & Hj & [E|E]); inversion E. assert (j = i) by lia. subst. auto.
Qed.

Lemma count_buy_present (l : list Z) (i : Z) :
  NoDup l -> In i l ->
  count_occ action_eq_dec (rungs l) (PlaceLimitOrder (Z.min (i + 1) 5) true (c - i)) = 1%nat.
Proof.
  induction 1 as [|j l Hj Hl IH]; intros Hi; [contradiction|].
  change (rungs (j :: l)) with
    (PlaceLimitOrder (Z.min (j + 1) 5) true (c - j)
       :: PlaceLimitOrder (Z.min (j + 1) 5) false (c + j) :: rungs l).
  destruct (Z.eq_dec j i) as [->|Hne].
  - rewrite count_occ_cons_eq by reflexivity.
    rewrite count_occ_cons_neq by discriminate.
    rewrite count_buy_absent by exact Hj. reflexivity.
  - rewrite count_occ_cons_neq by (intros E; inversion E; lia).
    rewrite count_occ_cons_neq by discriminate.
    apply IH. destruct Hi; [contradiction|assumption].
Qed.

Lemma count_sell_present (l : list Z) (i : Z) :
  NoDup l -> In i l ->
  count_occ action_eq_dec (rungs l) (PlaceLimitOrder (Z.min (i + 1) 5) false (c + i)) = 1%nat.
Proof.
  induction 1 as [|j l Hj Hl IH]; intros Hi; [contradiction|].
  change (rungs (j :: l)) with
    (PlaceLimitOrder (Z.min (j + 1) 5) true (c - j)
       :: PlaceLimitOrder (Z.min (j + 1) 5) false (c + j) :: rungs l).
  destruct (Z.eq_dec j i) as [->|Hne].
  - rewrite count_occ_cons_neq by discriminate.
    rewrite count_occ_cons_eq by reflexivity.
    rewrite count_sell_absent by exact Hj. reflexivity.
  - rewrite count_occ_cons_neq by discriminate.
    rewrite count_occ_cons_neq by (intros E; inversion E; lia).
    apply IH. destruct Hi; [contradiction|assumption].
Qed.

End Rungs.

(** C1.  Whatever the oracle answers, with [p] the estimate returned by
    [updateEstimates], [placeOrder] makes exactly 198 calls, all of them
    limit orders: for every offset [i] from 1 to 99 exactly one buy at
    [floor p - i] and exactly one sell at [floor p + i], both of quantity
    [min (i + 1) 5]; nothing else, and nothing at the price [floor p]. *)
Theorem ladder_is_198_orders (a : agent) (oracle_price : Q) :
  let p := updateEstimates oracle_price in
  let acts := snd (placeOrder a oracle_price) in
  List.length acts = 198%nat /\
  (forall i, 1 <= i <= 99 ->
     count_occ action_eq_dec acts
       (PlaceLimitOrder (Z.min (i + 1) 5) true (Qfloor p - i)) = 1%nat /\
     count_occ action_eq_dec acts
       (PlaceLimitOrder (Z.min (i + 1) 5) false (Qfloor p + i)) = 1%nat) /\
  (forall x, In x acts ->
     exists i, 1 <= i <= 99 /\
       (x = PlaceLimitOrder (Z.min (i + 1) 5) true (Qfloor p - i) \/
        x = PlaceLimitOrder (Z.min (i + 1) 5) false (Qfloor p + i))) /\
  (forall q b, ~ In (PlaceLimitOrder q b (Qfloor p)) acts).
Proof.
  intros p acts. unfold acts, placeOrder. fold p.
  rewrite fold_place_pair. unfold p. rewrite estimate_is_integer. fold p.
  cbn [app]. set (c := Qfloor p).
  assert (Hmem : forall x,
    In x (flat_map (fun i => [PlaceLimitOrder (Z.min (i + 1) 5) true (c - i);
                              PlaceLimitOrder (Z.min (i + 1) 5) false (c + i)])
            (range 1 100)) ->
    exists i, 1 <= i <= 99 /\
      (x = PlaceLimitOrder (Z.min (i + 1) 5) true (c - i) \/
       x = PlaceLimitOrder (Z.min (i + 1) 5) false (c + i))).
  { intros x Hx. apply in_rungs in Hx. destruct Hx as (i & Hi & Hx).
    apply in_range in Hi. exists i. split; [lia|exact Hx]. }
  split; [|split; [|split]].
  - rewrite length_rungs, length_range. reflexivity.
  - intros i Hi. split.
    + apply count_buy_present; [apply NoDup_range|apply in_range; lia].
    + apply count_sell_present; [apply NoDup_range|apply in_range; lia].
  - exact Hmem.
  - intros q b Hin. apply Hmem in Hin.
    destruct Hin as (i & Hi & [E|E]); inversion E; lia.
Qed.

(** *** The filling and cancelling flags *)

Lemma getWakeFrequency_flags (a : agent) :
  fill (snd (getWakeFrequency a)) = fill a /\
  cancel (snd (getWakeFrequency a)) = cancel a /\
  exact_type (snd (getWakeFrequency a)) = exact_type a.
Proof.
  unfold getWakeFrequency.
  destruct (first_run a), (second_run a); simpl; auto.
Qed.

(** Nothing ever clears [fill]. *)
Lemma wakeup_keeps_fill (a : agent) (t : Z) (m : market) :
  fill (fst (wakeup a t m)) = fill a.
Proof.
  unfold wakeup.
  destruct (negb (mkt_open m) || negb (mkt_close m)); [reflexivity|].
  set (a1 := if negb (trading (set_state a INACTIVE)) then _ else _).
  assert (E1 : fill a1 = fill a) by (unfold a1; destruct (negb _); reflexivity).
  destruct (mkt_closed m && has_close_price m); [exact E1|].
  pose proof (getWakeFrequency_flags a1) as (F & C & X).
  destruct (getWakeFrequency a1) as [w a2]. simpl in F, C, X.
  destruct (mkt_closed m && negb (has_close_price m)); [simpl; congruence|].
  destruct (cancel a2 && fill a2); [simpl; congruence|].
  destruct (cancel a2); [simpl; congruence|].
  destruct (fill a2) eqn:E2; [|simpl; congruence].
  destruct (exact_type (set_cancel a2 true)); simpl; congruence.
Qed.

Lemma fold_place_pair_fill (p : Q) (l : list Z) (a : agent) (acc : list action) :
  fill (fst (fold_left (place_pair p) l (a, acc))) = fill a.
Proof.
  revert a acc. induction l as [|i l IH]; intros a acc; simpl; [reflexivity|].
  rewrite IH. reflexivity.
Qed.

Lemma receiveMessage_keeps_fill (a : agent) (m : market) (msg : string) (o : Q) :
  fill (fst (receiveMessage a m msg o)) = fill a.
Proof.
  unfold receiveMessage.
  destruct (state a); try reflexivity.
  destruct (String.eqb msg "QUERY_SPREAD"); [|reflexivity].
  destruct (mkt_closed m); [reflexivity|].
  unfold placeOrder.
  pose proof (fold_place_pair_fill (updateEstimates o) (range 1 100) a []) as F.
  destruct (fold_left _ _ _) as [a' acts]. exact F.
Qed.

(** With both flags set, a wakeup places and cancels nothing; it leaves the
    agent INACTIVE, unless the market has closed without a recorded close
    price, where the last spread request comes first. *)
Lemma wakeup_with_both_flags (a : agent) (t : Z) (m : market) :
  fill a = true -> cancel a = true ->
  forallb (fun x => negb (is_order x || is_cancel x)) (snd (wakeup a t m)) = true /\
  (state (fst (wakeup a t m)) = INACTIVE \/
   mkt_closed m = true /\ has_close_price m = false /\
   state (fst (wakeup a t m)) = AWAITING_SPREAD).
Proof.
  intros Hf Hc. unfold wakeup.
  destruct (negb (mkt_open m) || negb (mkt_close m)); [simpl; auto|].
  set (a1 := if negb (trading (set_state a INACTIVE)) then _ else _).
  assert (E1 : fill a1 = true /\ cancel a1 = true /\ state a1 = INACTIVE)
    by (unfold a1; destruct (negb _); simpl; auto).
  destruct E1 as (F1 & C1 & S1).
  destruct (mkt_closed m) eqn:Ecl, (has_close_price m) eqn:Ecp; simpl andb;
    try (simpl; auto; fail);
    pose proof (getWakeFrequency_flags a1) as (F & C & X);
    destruct (getWakeFrequency a1) as [w a2]; simpl in F, C, X.
  - simpl. auto.
  - rewrite C, F, C1, F1. simpl. auto.
  - rewrite C, F, C1, F1. simpl. auto.
Qed.

(** C2.  The first wakeup in trading hours sets [cancel] and leaves [fill]
    set: both flags are true in a state the agent reaches by its own
    transition.  The wakeup after that stops at the guard: it schedules the
    next wakeup, cancels nothing and leaves the agent INACTIVE. *)
Theorem first_wakeup_sets_both_flags :
  let a1 := fst (wakeup (init true) 0 trading_hours) in
  fill a1 = true /\ cancel a1 = true /\
  wakeup a1 10 trading_hours =
    (set_second_run (set_state a1 INACTIVE) false, [SetWakeup 300000000010]).
Proof. repeat split. Qed.

End LadderFacts.

(** ** The spread protocol *)

Section Protocol.

Context {A : Type} `{Agent A}.

(** What the argument needs of the handlers. *)
Hypothesis message_requests_nothing :
  forall a t msg i a' acts,
    deliver a (Message t msg i) = Ok (a', acts) -> requests acts = [].

Hypothesis wakeup_requests_once :
  forall a t i a' acts,
    deliver a (Wakeup t i) = Ok (a', acts) ->
    requests acts = [] \/
    (requests acts = [Request] /\ phase_of a' = AWAITING_SPREAD).

Hypothesis other_message_keeps_waiting :
  forall a t msg i a' acts,
    is_query msg = false -> phase_of a = AWAITING_SPREAD ->
    deliver a (Message t msg i) = Ok (a', acts) ->
    phase_of a' = AWAITING_SPREAD.

Lemma separated_from_answered (evs : list event) :
  forall (a : A) (woke pending : bool),
    (pending = true -> woke = true /\ phase_of a = AWAITING_SPREAD) ->
    answered_from woke evs = true ->
    separated_from pending (trace a evs) = true.
Proof.
  induction evs as [|e evs IH]; intros a woke pending Inv Hans; [reflexivity|].
  destruct e as [t i | t msg i]; simpl in Hans |- *.
  - apply andb_true_iff in Hans. destruct Hans as [Hw Hans].
    apply negb_true_iff in Hw. subst woke.
    assert (pending = false)
      by (destruct pending; [destruct Inv; [reflexivity|discriminate]|reflexivity]).
    subst pending.
    destruct (deliver a (Wakeup t i)) as [[a' acts]|] eqn:E; [|reflexivity].
    destruct (wakeup_requests_once _ _ _ _ _ E) as [R | [R P]]; rewrite R; simpl.
    + apply (IH a' true false); [discriminate|exact Hans].
    + apply (IH a' true true); [auto|exact Hans].
  - destruct (is_query msg) eqn:Q.
    + assert (Hsep : separated_from false
                (match deliver a (Message t msg i) with
                 | Ok (a', acts) => requests acts ++ trace a' evs
                 | Raise _ => []
                 end) = true).
      { destruct (deliver a (Message t msg i)) as [[a' acts]|] eqn:E; [|reflexivity].
        rewrite (message_requests_nothing _ _ _ _ _ _ E). simpl.
        apply (IH a' false false); [discriminate|exact Hans]. }
      destruct (phase_eqb (phase_of a) AWAITING_SPREAD) eqn:P; simpl.
      * exact Hsep.
      * destruct pending; [|exact Hsep].
        destruct Inv as [_ Ph]; [reflexivity|]. rewrite Ph in P. discriminate.
    + rewrite andb_false_r. simpl.
      destruct (deliver a (Message t msg i)) as [[a' acts]|] eqn:E;
        [|destruct pending; reflexivity].
      rewrite (message_requests_nothing _ _ _ _ _ _ E). simpl.
      apply (IH a' woke pending); [|exact Hans].
      intros Hp. destruct (Inv Hp) as [Hw Ph]. split; [exact Hw|].
      eapply other_message_keeps_waiting; eauto.
Qed.

End Protocol.

(** From [Ok x = Ok (a', acts)]: replace [a'] and [acts] by the components
    of [x]. *)
Ltac ok_components E :=
  injection E as E;
  let E1 := fresh in let E2 := fresh in
  pose proof (f_equal fst E) as E1; pose proof (f_equal snd E) as E2;
  cbn [fst snd] in E1, E2; clear E;
  match type of E1 with _ = ?a => subst a end;
  match type of E2 with _ = ?b => subst b end.

Lemma requests_app (xs ys : list action) :
  requests (xs ++ ys) = requests xs ++ requests ys.
Proof. unfold requests. rewrite filter_app, map_app. reflexivity. Qed.

Lemma ladder_placeOrder_requests (a : Ladder.agent) (o : Q) :
  requests (snd (Ladder.placeOrder a o)) = [].
Proof.
  unfold Ladder.placeOrder. rewrite LadderFacts.fold_place_pair. simpl app.
  induction (range 1 100) as [|i l IH]; [reflexivity|exact IH].
Qed.

Lemma ladder_wakeup_cases (a : Ladder.agent) (t : Z) (m : market) :
  requests (snd (Ladder.wakeup a t m)) = [] \/
  (requests (snd (Ladder.wakeup a t m)) = [Request] /\
   Ladder.state (fst (Ladder.wakeup a t m)) = AWAITING_SPREAD).
Proof.
  unfold Ladder.wakeup, Ladder.getWakeFrequency, Ladder.cancelOrders.
  destruct a as [f c fr sr tr st os ex]; simpl.
  destruct m as [mo mc mcd hcp]; simpl.
  destruct mo, mc, mcd, hcp, tr, fr, sr, c, f, ex; simpl; auto.
Qed.

Lemma zi_wakeup_cases (a : ZI.agent) (t : Z) (m : market) :
  requests (snd (ZI.wakeup a t m)) = [] \/
  (requests (snd (ZI.wakeup a t m)) = [Request] /\
   ZI.state (fst (ZI.wakeup a t m)) = AWAITING_SPREAD).
Proof.
  unfold ZI.wakeup, ZI.getWakeFrequency, Random.exponential, Random.draw.
  destruct a as [la tr st os oc bc rs ex]; simpl.
  destruct m as [mo mc mcd hcp]; simpl.
  destruct mo, mc, mcd, hcp, tr, ex; simpl; auto.
Qed.

Lemma zi_placeOrder_requests (a a' : ZI.agent) (book : snapshot) (o : Q)
    (acts : list action) :
  ZI.placeOrder a book o = Ok (a', acts) -> requests acts = [].
Proof.
  unfold ZI.placeOrder.
  destruct (bid book), (ask book); try discriminate.
  destruct (Qcompare _ _); intros E; inversion E; reflexivity.
Qed.

Lemma momentum_observe_requests (a a' : Momentum.agent) (book : snapshot)
    (acts : list action) :
  Momentum.observe a book = Ok (a', acts) -> requests acts = [].
Proof.
  unfold Momentum.observe.
  destruct (bid book), (ask book); try (intros E; inversion E; reflexivity).
  destruct (_ && _); [|intros E; inversion E; reflexivity].
  destruct (_ <? _)%nat; [|intros E; inversion E; reflexivity].
  unfold Momentum.crossover.
  destruct (bind (Momentum.ma _ _) _) as [s|]; [|discriminate]. cbn [bind].
  destruct (bind (Momentum.ma _ _) _) as [l|]; [|discriminate]. cbn [bind].
  destruct (_ && _); [|intros E; inversion E; reflexivity].
  destruct (Qltb _ _); [intros E; inversion E; reflexivity|].
  destruct (Qltb _ _); intros E; inversion E; reflexivity.
Qed.

Lemma ladder_receive_requests (a : Ladder.agent) (m : market) (msg : string) (o : Q) :
  requests (snd (Ladder.receiveMessage a m msg o)) = [].
Proof.
  unfold Ladder.receiveMessage.
  destruct (Ladder.state a); try reflexivity.
  destruct (String.eqb msg "QUERY_SPREAD"); [|reflexivity].
  destruct (mkt_closed m); [reflexivity|].
  pose proof (ladder_placeOrder_requests a o) as R.
  destruct (Ladder.placeOrder a o). exact R.
Qed.

Lemma ladder_protocol (evs : list event) (a : Ladder.agent) :
  answered evs = true -> separated (trace a evs) = true.
Proof.
  intros Hans. apply (separated_from_answered (A := Ladder.agent)) with (woke := false);
    [| | |discriminate|exact Hans]; clear.
  - intros a t msg i a' acts E. simpl in E. ok_components E.
    apply ladder_receive_requests.
  - intros a t i a' acts E. simpl in E. ok_components E.
    apply ladder_wakeup_cases.
  - intros a t msg i a' acts Q P E. simpl in E, P. ok_components E.
    unfold Ladder.receiveMessage. rewrite P.
    unfold is_query in Q. rewrite Q. exact P.
Qed.

Lemma zi_protocol (evs : list event) (a : ZI.agent) :
  answered evs = true -> separated (trace a evs) = true.
Proof.
  intros Hans. apply (separated_from_answered (A := ZI.agent)) with (woke := false);
    [| | |discriminate|exact Hans]; clear.
  - intros a t msg i a' acts E. simpl in E.
    unfold ZI.receiveMessage in E.
    destruct (ZI.state a); try (inversion E; reflexivity).
    destruct (String.eqb msg "QUERY_SPREAD"); [|inversion E; reflexivity].
    destruct (mkt_closed (view i)); [inversion E; reflexivity|].
    destruct (ZI.placeOrder a (quotes i) (oracle_price i)) as [[a1 acts1]|] eqn:P;
      [|discriminate].
    simpl in E. inversion E. subst. eapply zi_placeOrder_requests; eauto.
  - intros a t i a' acts E. simpl in E. ok_components E.
    apply zi_wakeup_cases.
  - intros a t msg i a' acts Q P E. simpl in E, P.
    unfold ZI.receiveMessage in E. rewrite P in E.
    unfold is_query in Q. rewrite Q in E. inversion E. subst. exact P.
Qed.

Lemma momentum_protocol (evs : list event) (a : Momentum.agent) :
  answered evs = true -> separated (trace a evs) = true.
Proof.
  intros Hans. apply (separated_from_answered (A := Momentum.agent)) with (woke := false);
    [| | |discriminate|exact Hans]; clear.
  - intros a t msg i a' acts E. simpl in E.
    unfold Momentum.receiveMessage in E.
    destruct (_ && _); [|inversion E; reflexivity].
    destruct (Momentum.observe _ _) as [[a1 acts1]|] eqn:P; [|discriminate].
    cbn [bind] in E. destruct (Momentum.getWakeFrequency a1) as [wf a2].
    inversion E. subst. rewrite requests_app.
    rewrite (momentum_observe_requests _ _ _ _ P). reflexivity.
  - intros a t i a' acts E. simpl in E. ok_components E.
    unfold Momentum.wakeup. destruct (negb (can_trade i)); simpl; auto.
  - intros a t msg i a' acts Q P E. simpl in E, P.
    unfold Momentum.receiveMessage in E.
    unfold is_query in Q. rewrite Q, andb_false_r in E. inversion E. subst. exact P.
Qed.




(** ** Scheduling the next wakeup *)

Lemma ladder_wakeup_schedules_first (a : Ladder.agent) (t : Z) (m : market) :
  mkt_open m = true -> mkt_close m = true ->
  mkt_closed m && has_close_price m = false ->
  exists w rest,
    snd (Ladder.wakeup a t m) = SetWakeup (t + w) :: rest /\
    filter is_set_wakeup rest = [].
Proof.
  intros Ho Hc Ht.
  unfold Ladder.wakeup, Ladder.getWakeFrequency, Ladder.cancelOrders.
  rewrite Ho, Hc, Ht.
  destruct a as [f c fr sr tr st os ex]; simpl.
  destruct (mkt_closed m), (has_close_price m), tr, fr, sr, c, f, ex; simpl;
    eexists; eexists; split; reflexivity.
Qed.

Lemma zi_wakeup_schedules_first (a : ZI.agent) (t : Z) (m : market) :
  mkt_open m = true -> mkt_close m = true ->
  mkt_closed m && has_close_price m = false ->
  exists w rest,
    snd (ZI.wakeup a t m) = SetWakeup (t + w) :: rest /\
    filter is_set_wakeup rest = [].
Proof.
  intros Ho Hc Ht.
  unfold ZI.wakeup, ZI.getWakeFrequency, ZI.modifyWakeFrequency,
    Random.exponential, Random.draw.
  rewrite Ho, Hc, Ht.
  destruct a as [la tr st os oc bc rs ex]; simpl.
  destruct (mkt_closed m), (has_close_price m), tr, ex; simpl;
    eexists; eexists; split; reflexivity.
Qed.

Lemma momentum_observe_no_wakeup (a a' : Momentum.agent) (q : snapshot)
    (acts : list action) :
  Momentum.observe a q = Ok (a', acts) -> filter is_set_wakeup acts = [].
Proof.
  unfold Momentum.observe.
  destruct (bid q), (ask q); try (intros E; inversion E; reflexivity).
  destruct (_ && _); [|intros E; inversion E; reflexivity].
  destruct (_ <? _)%nat; [|intros E; inversion E; reflexivity].
  unfold Momentum.crossover.
  destruct (bind (Momentum.ma _ _) _) as [s|]; [|discriminate]. cbn [bind].
  destruct (bind (Momentum.ma _ _) _) as [l|]; [|discriminate]. cbn [bind].
  destruct (_ && _); [|intros E; inversion E; reflexivity].
  destruct (Qltb _ _); [intros E; inversion E; reflexivity|].
  destruct (Qltb _ _); intros E; inversion E; reflexivity.
Qed.




(** ** The directional agent *)

Module ZIFacts.
Import ZI.



(** A resting volume of at least one gives a quantity of at least one. *)
Lemma quantity_positive_on_positive_depth (a a' : agent) (q : snapshot)
    (o : Q) (acts : list action) (x : action) :
  (1 <= bidsize q)%N -> (1 <= asksize q)%N ->
  placeOrder a q o = Ok (a', acts) -> In x acts ->
  exists n buy, x = PlaceMarketOrder n buy /\ 1 <= n.
Proof.
  intros Hb Hk. unfold placeOrder.
  destruct (bid q), (ask q); try discriminate.
  destruct (Qcompare _ _); intros E; inversion E; subst; simpl;
    intros Hx; try contradiction; destruct Hx as [<-|[]];
    eexists; eexists; (split; [reflexivity|]);
    apply NumericFacts.depth_size_positive; assumption.
Qed.

(** C4 fails on the code: with a quote whose resting volume is zero, the
    computed quantity [round (0 ^ 0.35) = 0] goes to [placeMarketOrder] as
    it is, neither raised to one nor skipped. *)
Theorem zero_quantity_is_submitted :
  placeOrder Scenario.zi (Scenario.book (Some 99) 5 (Some 101) 0) 105 =
    Ok (set_order_size (set_counts Scenario.zi 1 1) 0, [PlaceMarketOrder 0 true]).
Proof. vm_compute. reflexivity. Qed.

(** C5 fails on the code: when a side of the book is empty, [bid + ask]
    raises and the exception leaves [receiveMessage]. *)
Theorem missing_quote_raises (a : agent) (b : option Z) (bs ks : N) (o : Q) :
  receiveMessage (set_state a AWAITING_SPREAD) trading_hours "QUERY_SPREAD"
    (Scenario.book b bs None ks) o = Raise TypeError /\
  receiveMessage (set_state a AWAITING_SPREAD) trading_hours "QUERY_SPREAD"
    (Scenario.book None bs b ks) o = Raise TypeError.
Proof.
  split; unfold receiveMessage, placeOrder; simpl; destruct b; reflexivity.
Qed.

End ZIFacts.

(** ** The momentum agent *)

Module MomentumFacts.
Import Momentum.

Lemma length_cumsum_from (acc : Q) (a : list Q) :
  List.length (cumsum_from acc a) = List.length a.
Proof.
  revert acc. induction a as [|x a IH]; intros acc; simpl; [reflexivity|].
  rewrite IH. reflexivity.
Qed.

(** Entry [k] of the prefix sums is the sum of the first [k + 1] entries. *)
Lemma nth_cumsum_from (a : list Q) :
  forall (acc : Q) (k : nat), (k < List.length a)%nat ->
    (nth k (cumsum_from acc a) 0 == acc + Qsum (firstn (S k) a))%Q.
Proof.
  induction a as [|x a IH]; intros acc k Hk; simpl in Hk; [lia|].
  destruct k as [|k].
  - simpl. destruct a; simpl; ring.
  - change (nth (S k) (cumsum_from acc (x :: a)) 0%Q)
      with (nth k (cumsum_from (acc + x)%Q a) 0%Q).
    rewrite IH by lia.
    change (firstn (S (S k)) (x :: a)) with (x :: firstn (S k) a).
    simpl Qsum. unfold Qsum. ring.
Qed.

Lemma array_sub_same_length (x : list Q) :
  forall y, List.length x = List.length y ->
    exists d, array_sub x y = Some d /\ List.length d = List.length x /\
      forall j, (nth j d 0 == nth j x 0 - nth j y 0)%Q.
Proof.
  induction x as [|u x IH]; intros [|v y] Hl; simpl in Hl; try discriminate.
  - exists []. repeat split. intros [|j]; simpl; ring.
  - injection Hl as Hl. destruct (IH y Hl) as (d & E & L & N).
    exists ((u - v)%Q :: d). simpl. rewrite E. repeat split.
    + rewrite L. reflexivity.
    + intros [|j]; [reflexivity|apply N].
Qed.

Lemma Qsum_firstn_split (m n : nat) :
  forall a, (Qsum (firstn (m + n) a) == Qsum (firstn m a) + Qsum (firstn n (skipn m a)))%Q.
Proof.
  induction m as [|m IH]; intros a.
  - simpl. ring.
  - destruct a as [|x a].
    + rewrite skipn_nil, !firstn_nil. simpl. ring.
    + change (firstn (S m + n) (x :: a)) with (x :: firstn (m + n) a).
      change (firstn (S m) (x :: a)) with (x :: firstn m a).
      change (skipn (S m) (x :: a)) with (skipn m a).
      simpl Qsum. rewrite IH. unfold Qsum. ring.
Qed.

(** The array [ret] of [ma] after the slice assignment: entry [k] holds the
    sum of the window of length [n] that ends at [k]. *)
Lemma windowed_sums (a : list Q) (n : nat) :
  (1 <= n)%nat -> (n <= List.length a)%nat ->
  exists d,
    array_sub (skipn n (cumsum a)) (drop_last n (cumsum a)) = Some d /\
    List.length (firstn n (cumsum a) ++ d) = List.length a /\
    forall j, (j + n <= List.length a)%nat ->
      (nth (n - 1 + j) (firstn n (cumsum a) ++ d) 0 ==
       Qsum (firstn n (skipn j a)))%Q.
Proof.
  intros H1 Hn. unfold cumsum.
  set (ret := cumsum_from 0 a).
  assert (Lr : List.length ret = List.length a) by apply length_cumsum_from.
  assert (Ed : drop_last n ret = firstn (List.length ret - n) ret)
    by (destruct n; [lia|reflexivity]).
  destruct (array_sub_same_length (skipn n ret) (drop_last n ret))
    as (d & E & L & N).
  { rewrite Ed, length_skipn, length_firstn. lia. }
  exists d. split; [exact E|]. split.
  - rewrite length_app, length_firstn, L, length_skipn. lia.
  - intros j Hj. destruct j as [|j].
    + rewrite app_nth1 by (rewrite length_firstn; lia).
      rewrite nth_firstn.
      destruct (Nat.ltb_spec (n - 1 + 0) n); [|lia].
      unfold ret. rewrite nth_cumsum_from by lia.
      replace (S (n - 1 + 0)) with n by lia. simpl skipn. ring.
    + rewrite app_nth2 by (rewrite length_firstn; lia).
      rewrite length_firstn.
      replace (n - 1 + S j - Nat.min n (List.length ret))%nat with j by lia.
      rewrite N, nth_skipn, Ed, nth_firstn.
      destruct (Nat.ltb_spec j (List.length ret - n)); [|lia].
      unfold ret. rewrite !nth_cumsum_from by lia.
      replace (S (n + j)) with (S j + n)%nat by lia.
      rewrite Qsum_firstn_split. ring.
Qed.



(** *** The window of mid-prices *)

Lemma length_lastn {X : Type} (n : nat) (l : list X) :
  List.length (lastn n l) = Nat.min n (List.length l).
Proof. unfold lastn. rewrite length_skipn. lia. Qed.

Lemma lastn_all {X : Type} (n : nat) (l : list X) :
  (List.length l <= n)%nat -> lastn n l = l.
Proof.
  intros H. unfold lastn. replace (List.length l - n)%nat with 0%nat by lia.
  reflexivity.
Qed.

Lemma lastn_app {X : Type} (n : nat) (x y : list X) :
  lastn n (x ++ y) = lastn (n - List.length y) x ++ lastn n y.
Proof.
  unfold lastn. rewrite skipn_app, length_app. f_equal.
  - destruct (Nat.le_gt_cases (List.length y) n).
    + f_equal. lia.
    + rewrite !skipn_all2 by lia. reflexivity.
  - f_equal. lia.
Qed.

Lemma lastn_lastn {X : Type} (m n : nat) (l : list X) :
  (m <= n)%nat -> lastn m (lastn n l) = lastn m l.
Proof.
  intros H. unfold lastn at 1. rewrite length_lastn. unfold lastn.
  rewrite skipn_skipn. f_equal. lia.
Qed.

Lemma lastn_app_lastn {X : Type} (n : nat) (x y : list X) :
  lastn n (lastn n x ++ y) = lastn n (x ++ y).
Proof. rewrite !lastn_app, lastn_lastn by lia. reflexivity. Qed.

Lemma lastn_snoc_full {X : Type} (l : list X) (v : X) :
  lastn (List.length l) (l ++ [v]) = tl (l ++ [v]).
Proof.
  unfold lastn. rewrite last_length.
  replace (S (List.length l) - List.length l)%nat with 1%nat by lia.
  destruct (l ++ [v]); reflexivity.
Qed.

Lemma last_entry_nonempty (x : list Q) :
  (1 <= List.length x)%nat -> exists v, last_entry x = Ok v.
Proof.
  intros H. unfold last_entry. rewrite <- length_rev in H.
  destruct (rev x) as [|v r]; [simpl in H; lia|]. exists v. reflexivity.
Qed.

(** On a full window both averages exist. *)
Lemma ma_last_exists (l : list Q) (n : nat) :
  (1 <= n)%nat -> (n <= List.length l)%nat ->
  exists v, bind (ma l n) last_entry = Ok v.
Proof.
  intros H1 Hn. destruct (windowed_sums l n H1 Hn) as (d & E & L & _).
  unfold ma. rewrite E. cbn [bind]. apply last_entry_nonempty.
  rewrite length_map, length_skipn, L. lia.
Qed.

Lemma no_order_app (xs ys : list action) :
  no_order (xs ++ ys) = no_order xs && no_order ys.
Proof. apply forallb_app. Qed.

(** What the handlers do to the window when they return: the configuration
    is untouched, the window is the tail of the old window followed by the
    new sample, and nothing is ordered while that still fits. *)
Lemma crossover_effect (a a' : agent) (acts : list action) :
  crossover a = Ok (a', acts) ->
  short_duration a' = short_duration a /\
  long_duration a' = long_duration a /\
  state a' = state a /\
  mid_list a' = tl (mid_list a).
Proof.
  unfold crossover.
  destruct (bind (ma _ _) last_entry) as [s|]; [|discriminate]. cbn [bind].
  destruct (bind (ma _ _) last_entry) as [l|]; [|discriminate]. cbn [bind].
  destruct (_ && _); [|intros E; inversion E; repeat split].
  destruct (Qltb _ _); [intros E; inversion E; repeat split|].
  destruct (Qltb _ _); intros E; inversion E; repeat split.
Qed.

Lemma crossover_defined (a : agent) :
  (1 <= short_duration a)%nat ->
  (short_duration a <= long_duration a)%nat ->
  List.length (tl (mid_list a)) = long_duration a ->
  exists r, crossover a = Ok r.
Proof.
  intros H1 Hs Hl. unfold crossover.
  destruct (ma_last_exists (tl (mid_list a)) (short_duration a)) as (s & Es);
    [lia|lia|].
  destruct (ma_last_exists (tl (mid_list a)) (long_duration a)) as (l & El);
    [lia|lia|].
  cbn [mid_list short_duration long_duration set_mid_list set_ma_short].
  rewrite Es. cbn [bind]. rewrite El. cbn [bind].
  destruct (_ && _); [|eexists; reflexivity].
  destruct (Qltb _ _); [eexists; reflexivity|].
  destruct (Qltb _ _); eexists; reflexivity.
Qed.

Lemma observe_effect (a a' : agent) (q : snapshot) (acts : list action) :
  (List.length (mid_list a) <= long_duration a)%nat ->
  observe a q = Ok (a', acts) ->
  short_duration a' = short_duration a /\
  long_duration a' = long_duration a /\
  state a' = state a /\
  mid_list a' = lastn (long_duration a) (mid_list a ++ quoted_mid q) /\
  ((List.length (mid_list a ++ quoted_mid q) <= long_duration a)%nat ->
   acts = []).
Proof.
  intros Hl. unfold observe, quoted_mid.
  assert (Skip : Ok (a, @nil action) = Ok (a', acts) ->
    short_duration a' = short_duration a /\
    long_duration a' = long_duration a /\ state a' = state a /\
    mid_list a' = lastn (long_duration a) (mid_list a ++ []) /\
    ((List.length (mid_list a ++ []) <= long_duration a)%nat -> acts = [])).
  { intros E. inversion E. subst.
    rewrite app_nil_r, lastn_all by exact Hl. repeat split. }
  destruct (bid q) as [b|]; [|exact Skip].
  destruct (ask q) as [k|]; [|exact Skip].
  destruct (truthy (Some b) && truthy (Some k)); [|exact Skip].
  set (mid := (inject_Z (b + k) / 2)%Q).
  cbn [long_duration mid_list set_mid_list].
  destruct (Nat.ltb_spec (long_duration a) (List.length (mid_list a ++ [mid])))
    as [Hfull|Hroom]; intros E.
  - rewrite last_length in Hfull.
    assert (Elen : List.length (mid_list a) = long_duration a) by lia.
    apply crossover_effect in E. cbn in E. destruct E as (S' & L' & St & M).
    repeat split; try assumption.
    + rewrite M, <- Elen. symmetry. apply lastn_snoc_full.
    + rewrite last_length. lia.
  - inversion E. subst. cbn. rewrite lastn_all by exact Hroom. repeat split.
Qed.

Lemma observe_defined (a : agent) (q : snapshot) :
  (1 <= short_duration a)%nat ->
  (short_duration a <= long_duration a)%nat ->
  (List.length (mid_list a) <= long_duration a)%nat ->
  exists r, observe a q = Ok r.
Proof.
  intros H1 Hs Hl. unfold observe.
  destruct (bid q) as [b|]; [|eexists; reflexivity].
  destruct (ask q) as [k|]; [|eexists; reflexivity].
  destruct (truthy (Some b) && truthy (Some k)); [|eexists; reflexivity].
  cbn [long_duration mid_list set_mid_list].
  destruct (Nat.ltb_spec (long_duration a)
              (List.length (mid_list a ++ [(inject_Z (b + k) / 2)%Q])))
    as [Hfull|Hroom]; [|eexists; reflexivity].
  rewrite last_length in Hfull.
  apply crossover_defined; cbn; try assumption.
  rewrite length_tl, last_length. lia.
Qed.

Lemma handle_effect (a a' : agent) (e : event) (acts : list action) :
  (List.length (mid_list a) <= long_duration a)%nat ->
  handle a e = Ok (a', acts) ->
  short_duration a' = short_duration a /\
  long_duration a' = long_duration a /\
  mid_list a' = lastn (long_duration a) (mid_list a ++ sampled a e) /\
  ((List.length (mid_list a ++ sampled a e) <= long_duration a)%nat ->
   no_order acts = true).
Proof.
  intros Hl. destruct e as [t i|t msg i]; cbn [handle sampled].
  - unfold wakeup. rewrite app_nil_r, lastn_all by exact Hl.
    destruct (negb (can_trade i)); intros E; inversion E; repeat split.
  - unfold receiveMessage.
    destruct (phase_eqb (state a) AWAITING_SPREAD && String.eqb msg "QUERY_SPREAD").
    + destruct (observe _ _) as [[a1 orders]|] eqn:O; [|discriminate].
      apply observe_effect in O; [|exact Hl].
      cbn in O. destruct O as (S1 & L1 & St & M & No).
      cbn [bind]. unfold getWakeFrequency, Random.exponential, Random.draw.
      intros E. inversion E. subst. cbn. repeat split; try assumption.
      intros Hlen. rewrite (No Hlen). reflexivity.
    + rewrite app_nil_r, lastn_all by exact Hl.
      intros E. inversion E. repeat split.
Qed.

Lemma handle_defined (a : agent) (e : event) :
  (1 <= short_duration a)%nat ->
  (short_duration a <= long_duration a)%nat ->
  (List.length (mid_list a) <= long_duration a)%nat ->
  exists r, handle a e = Ok r.
Proof.
  intros H1 Hs Hl. destruct e as [t i|t msg i]; cbn [handle].
  - eexists. reflexivity.
  - unfold receiveMessage.
    destruct (phase_eqb (state a) AWAITING_SPREAD && String.eqb msg "QUERY_SPREAD");
      [|eexists; reflexivity].
    destruct (observe_defined (set_vols a (bidsize (quotes i)) (asksize (quotes i)))
                (quotes i) H1 Hs Hl) as ([a1 orders] & E).
    rewrite E. cbn [bind].
    destruct (getWakeFrequency a1). eexists. reflexivity.
Qed.

(** Along an execution the window is the tail of what was appended, and no
    order leaves the agent while the samples still fit in the window. *)
Lemma run_effect (evs : list event) :
  forall (a a' : agent) (acts : list action),
    (List.length (mid_list a) <= long_duration a)%nat ->
    run a evs = Ok (a', acts) ->
    short_duration a' = short_duration a /\
    long_duration a' = long_duration a /\
    mid_list a' = lastn (long_duration a) (mid_list a ++ observed a evs) /\
    ((List.length (mid_list a ++ observed a evs) <= long_duration a)%nat ->
     no_order acts = true).
Proof.
  induction evs as [|e evs IH]; intros a a' acts Hl E.
  - cbn in E. inversion E. subst. cbn.
    rewrite app_nil_r, lastn_all by exact Hl. repeat split.
  - cbn [run observed deliver momentum_agent] in E |- *.
    destruct (handle a e) as [[a1 acts1]|] eqn:H1; [|discriminate].
    cbn [bind] in E.
    destruct (run a1 evs) as [[a2 acts2]|] eqn:R; [|discriminate].
    cbn [bind] in E. inversion E. subst. clear E.
    destruct (handle_effect a a1 e acts1 Hl H1) as (S1 & L1 & M1 & N1).
    destruct (IH a1 a' acts2) as (S2 & L2 & M2 & N2); [|exact R|].
    { rewrite M1, length_lastn, L1. lia. }
    rewrite L1 in L2, M2, N2. rewrite M1 in M2, N2.
    split; [congruence|]. split; [congruence|]. split.
    + rewrite M2, lastn_app_lastn, app_assoc. reflexivity.
    + intros Hlen. rewrite app_assoc, length_app in Hlen.
      rewrite no_order_app, N1 by lia.
      rewrite lastn_all in N2 by lia. apply N2.
      rewrite length_app. lia.
Qed.

(** With a short window no longer than the long one, and at least one, no
    handler raises. *)
Lemma run_defined (evs : list event) :
  forall a : agent,
    (1 <= short_duration a)%nat ->
    (short_duration a <= long_duration a)%nat ->
    (List.length (mid_list a) <= long_duration a)%nat ->
    exists r, run a evs = Ok r.
Proof.
  induction evs as [|e evs IH]; intros a H1 Hs Hl.
  - eexists. reflexivity.
  - destruct (handle_defined a e H1 Hs Hl) as ([a1 acts1] & E).
    destruct (handle_effect a a1 e acts1 Hl E) as (S1 & L1 & M1 & _).
    destruct (IH a1) as ([a2 acts2] & R).
    { lia. } { lia. } { rewrite M1, length_lastn, L1. lia. }
    cbn [run deliver momentum_agent]. rewrite E. cbn [bind].
    rewrite R. cbn [bind]. eexists. reflexivity.
Qed.



(** The guard that the directional agent lacks: on a missing quote the
    momentum agent places nothing and ends its cycle as usual. *)
Lemma missing_quote_is_skipped (a : agent) (t : Z) (q : snapshot) :
  state a = AWAITING_SPREAD -> bid q = None \/ ask q = None ->
  exists a' w,
    receiveMessage a t "QUERY_SPREAD" q = Ok (a', [SetWakeup (t + w)]) /\
    state a' = AWAITING_WAKEUP /\ mid_list a' = mid_list a.
Proof.
  intros Hs Hq. unfold receiveMessage, observe. rewrite Hs.
  cbn [phase_eqb andb set_vols].
  change (String.eqb "QUERY_SPREAD" "QUERY_SPREAD") with true. cbv iota.
  unfold getWakeFrequency, Random.exponential, Random.draw.
  destruct Hq as [-> | ->]; [|destruct (bid q)];
    cbn; eexists; eexists; repeat split.
Qed.

End MomentumFacts.

(** ** Random draws *)

Module RandomFacts.

(** The private generator is advanced by one draw, whatever numpy's
    module-level generator holds. *)
Lemma getOrderSize_private_stream (np1 np2 rs : Random.RandomState) :
  snd (Random.getOrderSize np1 rs) = snd (Random.getOrderSize np2 rs).
Proof.
  unfold Random.getOrderSize, Random.power, Random.rand, Random.draw.
  destruct (Qcompare _ _); reflexivity.
Qed.

(** C10 fails on the code: [getOrderSize] takes its power-law variate from
    numpy's module-level generator.  The same agent, with the same private
    stream, stores 70 or 140 in [order_size] according to what that other
    generator hands out. *)
Theorem order_size_follows_module_generator :
  ZI.order_size (fst (ZI.getOrderSize (Scenario.stream 1) Scenario.zi)) = 70 /\
  ZI.order_size (fst (ZI.getOrderSize (Scenario.stream (1 # 2)) Scenario.zi)) = 140 /\
  Momentum.order_size
    (fst (Momentum.getOrderSize (Scenario.stream 1) Scenario.momentum)) = 70 /\
  Momentum.order_size
    (fst (Momentum.getOrderSize (Scenario.stream (1 # 2)) Scenario.momentum)) = 140.
Proof. repeat split; vm_compute; reflexivity. Qed.

End RandomFacts.

(** ** The ladder never cancels *)

Lemma ladder_wakeup_no_cancel (a : Ladder.agent) (t : Z) (m : market) :
  Ladder.fill a = true ->
  forallb (fun x => negb (is_cancel x)) (snd (Ladder.wakeup a t m)) = true.
Proof.
  intros Hf. unfold Ladder.wakeup, Ladder.getWakeFrequency, Ladder.cancelOrders.
  destruct a as [f c fr sr tr st os ex]; simpl in Hf |- *. subst f.
  destruct m as [mo mc mcd hcp]; simpl.
  destruct mo, mc, mcd, hcp, tr, fr, sr, c, ex; reflexivity.
Qed.

Lemma ladder_receive_no_cancel (a : Ladder.agent) (m : market) (msg : string) (o : Q) :
  forallb (fun x => negb (is_cancel x)) (snd (Ladder.receiveMessage a m msg o)) = true.
Proof.
  unfold Ladder.receiveMessage.
  destruct (Ladder.state a); try reflexivity.
  destruct (String.eqb msg "QUERY_SPREAD"); [|reflexivity].
  destruct (mkt_closed m); [reflexivity|].
  assert (R : forallb (fun x => negb (is_cancel x)) (snd (Ladder.placeOrder a o)) = true).
  { unfold Ladder.placeOrder. rewrite LadderFacts.fold_place_pair. simpl app.
    induction (range 1 100) as [|i l IH]; [reflexivity|exact IH]. }
  destruct (Ladder.placeOrder a o). exact R.
Qed.

(** [fill] stays set, so the branch that calls [cancelOrders] is never
    taken: no execution of the constructed agent cancels an order. *)
Lemma ladder_never_cancels (evs : list event) :
  forall (a a' : Ladder.agent) (acts : list action),
    Ladder.fill a = true ->
    run a evs = Ok (a', acts) ->
    forallb (fun x => negb (is_cancel x)) acts = true /\ Ladder.fill a' = true.
Proof.
  induction evs as [|e evs IH]; intros a a' acts Hf E.
  - cbn in E. inversion E. subst. auto.
  - cbn [run deliver ladder_agent] in E.
    destruct e as [t i|t msg i]; cbn [Ladder.handle bind] in E.
    + destruct (Ladder.wakeup a t (view i)) as [a1 acts1] eqn:W.
      destruct (run a1 evs) as [[a2 acts2]|] eqn:R; [|discriminate].
      cbn [bind] in E. inversion E. subst.
      pose proof (LadderFacts.wakeup_keeps_fill a t (view i)) as F.
      pose proof (ladder_wakeup_no_cancel a t (view i) Hf) as C.
      rewrite W in F, C. cbn [fst snd] in F, C.
      destruct (IH a1 a' acts2) as [C2 F2]; [congruence|exact R|].
      rewrite forallb_app, C, C2. auto.
    + destruct (Ladder.receiveMessage a (view i) msg (oracle_price i))
        as [a1 acts1] eqn:W.
      destruct (run a1 evs) as [[a2 acts2]|] eqn:R; [|discriminate].
      cbn [bind] in E. inversion E. subst.
      pose proof (LadderFacts.receiveMessage_keeps_fill a (view i) msg (oracle_price i)) as F.
      pose proof (ladder_receive_no_cancel a (view i) msg (oracle_price i)) as C.
      rewrite W in F, C. cbn [fst snd] in F, C.
      destruct (IH a1 a' acts2) as [C2 F2]; [congruence|exact R|].
      rewrite forallb_app, C, C2. auto.
Qed.

(** * Further properties *)

(** ** The ladder's orders *)

Module LadderOrders.
Import Ladder.

Lemma fold_place_pair_size (p : Q) (l : list Z) (a : agent) (acc : list action) :
  order_size (fst (fold_left (place_pair p) l (a, acc))) =
  match rev l with
  | [] => order_size a
  | i :: _ => Z.min (i + 1) 5
  end.
Proof.
  revert a acc. induction l as [|i l IH]; intros a acc; [reflexivity|].
  cbn [fold_left place_pair]. rewrite IH. cbn [rev].
  destruct (rev l); reflexivity.
Qed.

(** Every order of the ladder has a quantity between 2 and 5, and
    [order_size] is left at 5. *)
Theorem ladder_quantities (a : agent) (oracle_price : Q) (x : action) :
  order_size (fst (placeOrder a oracle_price)) = 5 /\
  (In x (snd (placeOrder a oracle_price)) ->
   exists q b p, x = PlaceLimitOrder q b p /\ 2 <= q <= 5).
Proof.
  unfold placeOrder. split.
  - rewrite fold_place_pair_size. reflexivity.
  - rewrite LadderFacts.fold_place_pair. cbn [app]. intros Hx.
    apply LadderFacts.in_rungs in Hx. destruct Hx as (i & Hi & Hx).
    apply LadderFacts.in_range in Hi.
    destruct Hx as [-> | ->]; eexists; eexists; eexists;
      (split; [reflexivity|lia]).
Qed.

Lemma ladder_quantities_witness :
  In (PlaceLimitOrder 2 true 99) (snd (placeOrder Scenario.ladder 100)) /\
  exists q b p, PlaceLimitOrder 2 true 99 = PlaceLimitOrder q b p /\ 2 <= q <= 5.
Proof.
  assert (H : In (PlaceLimitOrder 2 true 99) (snd (placeOrder Scenario.ladder 100)))
    by (left; reflexivity).
  split; [exact H|].
  apply (proj2 (ladder_quantities Scenario.ladder 100 (PlaceLimitOrder 2 true 99))).
  exact H.
Defined.

(** The ladder does not cross itself: every buy is priced below the
    estimate and every sell above it, so any buy is at least two ticks
    below any sell. *)
Theorem ladder_does_not_cross (a : agent) (oracle_price : Q)
    (q1 q2 p1 p2 : Z) :
  In (PlaceLimitOrder q1 true p1) (snd (placeOrder a oracle_price)) ->
  In (PlaceLimitOrder q2 false p2) (snd (placeOrder a oracle_price)) ->
  p1 < Numeric.np_round oracle_price < p2 /\ p1 + 2 <= p2.
Proof.
  unfold placeOrder. rewrite LadderFacts.fold_place_pair. cbn [app].
  unfold updateEstimates, Numeric.py_round.
  rewrite NumericFacts.round_half_even_inject.
  intros H1 H2.
  apply LadderFacts.in_rungs in H1. destruct H1 as (i & Hi & H1).
  apply LadderFacts.in_rungs in H2. destruct H2 as (j & Hj & H2).
  apply LadderFacts.in_range in Hi. apply LadderFacts.in_range in Hj.
  destruct H1 as [H1|H1]; inversion H1.
  destruct H2 as [H2|H2]; inversion H2.
  lia.
Qed.

Lemma ladder_does_not_cross_witness :
  99 < Numeric.np_round 100 < 101 /\ 99 + 2 <= 101.
Proof.
  apply (ladder_does_not_cross Scenario.ladder 100 2 2 99 101).
  - left. reflexivity.
  - right. left. reflexivity.
Defined.

(** The calls come rung by rung from the estimate outwards, the buy of a
    rung before its sell. *)
Theorem ladder_emission_order (a : agent) (oracle_price : Q) (i : nat) :
  (i < 99)%nat ->
  let c := Numeric.np_round oracle_price in
  let k := Z.of_nat i + 1 in
  nth_error (snd (placeOrder a oracle_price)) (2 * i) =
    Some (PlaceLimitOrder (Z.min (k + 1) 5) true (c - k)) /\
  nth_error (snd (placeOrder a oracle_price)) (2 * i + 1) =
    Some (PlaceLimitOrder (Z.min (k + 1) 5) false (c + k)).
Proof.
  intros Hi c k. unfold placeOrder. rewrite LadderFacts.fold_place_pair.
  cbn [app]. unfold updateEstimates, Numeric.py_round.
  rewrite NumericFacts.round_half_even_inject. fold c.
  unfold range. change (Z.to_nat (100 - 1)) with 99%nat.
  set (f := fun i0 : Z =>
      [PlaceLimitOrder (Z.min (i0 + 1) 5) true (c - i0);
       PlaceLimitOrder (Z.min (i0 + 1) 5) false (c + i0)]).
  assert (G : forall n s j, (j < n)%nat ->
    nth_error (flat_map f (map (fun k0 : nat => 1 + Z.of_nat k0) (seq s n)))
      (2 * j) = nth_error (f (1 + Z.of_nat (s + j))) 0 /\
    nth_error (flat_map f (map (fun k0 : nat => 1 + Z.of_nat k0) (seq s n)))
      (2 * j + 1) = nth_error (f (1 + Z.of_nat (s + j))) 1).
  { induction n as [|n IH]; intros s j Hj; [lia|].
    destruct j as [|j].
    - cbn [seq map flat_map]. rewrite Nat.add_0_r. split; reflexivity.
    - cbn [seq map flat_map].
      replace (2 * S j)%nat with (S (S (2 * j))) by lia.
      replace (S (S (2 * j)) + 1)%nat with (S (S (2 * j + 1))) by lia.
      destruct (IH (S s) j ltac:(lia)) as [E0 E1].
      replace (s + S j)%nat with (S s + j)%nat by lia.
      rewrite <- E0, <- E1. split; reflexivity. }
  destruct (G 99%nat 0%nat i Hi) as [E0 E1].
  rewrite E0, E1. cbn [Nat.add]. unfold f.
  replace (1 + Z.of_nat i) with k by (unfold k; lia). split; reflexivity.
Qed.

Lemma ladder_emission_order_witness :
  nth_error (snd (placeOrder Scenario.ladder 100)) (2 * 98) =
    Some (PlaceLimitOrder 5 true 1) /\
  nth_error (snd (placeOrder Scenario.ladder 100)) (2 * 98 + 1) =
    Some (PlaceLimitOrder 5 false 199).
Proof.
  apply (ladder_emission_order Scenario.ladder 100 98). lia.
Defined.

End LadderOrders.

(** ** The staged wake schedule *)

Module LadderSchedule.
Import Ladder.

Lemma steady_delays (k : nat) (a : agent) :
  first_run a = false -> second_run a = false ->
  ladder_delays k a = repeat 30000000000000 k.
Proof.
  intros H1 H2. induction k as [|k IH]; [reflexivity|].
  cbn [ladder_delays repeat]. unfold getWakeFrequency. rewrite H1, H2.
  rewrite IH. reflexivity.
Qed.

(** From the constructed agent the successive delays are 10 ns, 300 s and
    then 30000 s for ever; from any agent, whatever its flags, the third
    and all later delays are 30000 s. *)
Theorem staged_delays (k : nat) :
  (forall exact,
     ladder_delays (2 + k) (init exact) =
     10 :: 300000000000 :: repeat 30000000000000 k) /\
  (forall a, skipn 2 (ladder_delays (2 + k) a) = repeat 30000000000000 k).
Proof.
  split.
  - intros exact. cbn [Nat.add ladder_delays]. unfold getWakeFrequency.
    cbn. rewrite steady_delays by reflexivity. reflexivity.
  - intros a. cbn [Nat.add ladder_delays]. unfold getWakeFrequency.
    destruct a as [f c fr sr tr st os ex].
    destruct fr, sr; cbn; apply steady_delays; reflexivity.
Qed.

(** A wakeup of the ladder never schedules the next one less than 10 ns
    ahead, and schedules at most one. *)
Theorem ladder_wakes_later (a : agent) (t x : Z) (m : market) :
  (count_calls is_set_wakeup (snd (wakeup a t m)) <= 1)%nat /\
  (In (SetWakeup x) (snd (wakeup a t m)) -> t + 10 <= x).
Proof.
  unfold wakeup, getWakeFrequency, cancelOrders, count_calls.
  destruct a as [f c fr sr tr st os ex]. destruct m as [mo mc mcd hcp].
  destruct mo, mc, mcd, hcp, tr, fr, sr, c, f, ex; cbn;
    (split; [lia|]); intros H;
    repeat (destruct H as [H|H]; [inversion H; lia|]); try contradiction;
    try discriminate.
Qed.

Lemma ladder_wakes_later_witness :
  In (SetWakeup 17) (snd (wakeup Scenario.ladder 7 trading_hours)) /\ 7 + 10 <= 17.
Proof.
  assert (H : In (SetWakeup 17) (snd (wakeup Scenario.ladder 7 trading_hours)))
    by (left; reflexivity).
  split; [exact H|].
  apply (proj2 (ladder_wakes_later Scenario.ladder 7 17 trading_hours)). exact H.
Defined.

End LadderSchedule.

(** ** Whole executions *)

Lemma count_calls_app (f : action -> bool) (xs ys : list action) :
  count_calls f (xs ++ ys) = (count_calls f xs + count_calls f ys)%nat.
Proof. unfold count_calls. rewrite filter_app, length_app. reflexivity. Qed.

Lemma count_orders_none (acts : list action) :
  no_order acts = true -> count_calls is_order acts = 0%nat.
Proof.
  unfold no_order, count_calls. induction acts as [|x acts IH]; [reflexivity|].
  cbn [forallb filter]. destruct (is_order x); cbn; [discriminate|exact IH].
Qed.

Module LadderRuns.
Import Ladder LadderLife.

Lemma fold_place_pair_fields (p : Q) (l : list Z) (a : agent) (acc : list action) :
  let a' := fst (fold_left (place_pair p) l (a, acc)) in
  fill a' = fill a /\ cancel a' = cancel a /\ state a' = state a.
Proof.
  revert a acc. induction l as [|i l IH]; intros a acc; [cbn; auto|].
  cbn [fold_left place_pair]. destruct (IH (set_order_size a (Z.min (i + 1) 5))
    (acc ++ [PlaceLimitOrder (order_size (set_order_size a (Z.min (i + 1) 5))) true
               (Numeric.py_round p - i);
             PlaceLimitOrder (order_size (set_order_size a (Z.min (i + 1) 5))) false
               (Numeric.py_round p + i)])) as (F & C & S).
  cbn zeta in F, C, S |- *. rewrite F, C, S. auto.
Qed.

Lemma count_placeOrder (a : agent) (o : Q) :
  count_calls is_order (snd (placeOrder a o)) = 198%nat.
Proof.
  unfold placeOrder. rewrite LadderFacts.fold_place_pair. cbn [app].
  unfold count_calls. rewrite <- (LadderFacts.length_range 1 100) at 1.
  change (Z.to_nat (100 - 1)) with 99%nat.
  assert (G : forall l : list Z,
    List.length (filter is_order
      (flat_map (fun i => [PlaceLimitOrder (Z.min (i + 1) 5) true
                             (Numeric.py_round (updateEstimates o) - i);
                           PlaceLimitOrder (Z.min (i + 1) 5) false
                             (Numeric.py_round (updateEstimates o) + i)]) l)) =
    (2 * List.length l)%nat).
  { induction l as [|i l IH]; [reflexivity|]. cbn [flat_map app filter is_order].
    cbn [List.length]. rewrite IH. lia. }
  rewrite G, LadderFacts.length_range. reflexivity.
Qed.

Lemma wakeup_budget (a : agent) (t : Z) (m : market) (closed : bool) :
  settled a closed -> implb closed (mkt_closed m) = true ->
  count_calls is_order (snd (wakeup a t m)) = 0%nat /\
  (budget (fst (wakeup a t m)) (mkt_closed m) <= budget a closed)%nat /\
  settled (fst (wakeup a t m)) (mkt_closed m).
Proof.
  intros [Hf Hs] Hc. unfold settled, budget, wakeup, getWakeFrequency, cancelOrders.
  destruct a as [f c fr sr tr st os ex]. cbn in Hf, Hs |- *. subst f.
  destruct m as [mo mc mcd hcp]. cbn in Hc |- *.
  destruct mo, mc; cbn; try (destruct c, st, closed; cbn in *;
    repeat split; try lia; try discriminate; intros; try discriminate; fail).
  - destruct mcd, hcp, tr, fr, sr, c, ex, st, closed; cbn in *;
      repeat split; try lia; try discriminate; intros; try discriminate;
      try reflexivity; try (exfalso; auto; fail).
Qed.

Lemma receive_budget (a : agent) (m : market) (msg : string) (o : Q) (closed : bool) :
  settled a closed -> implb closed (mkt_closed m) = true ->
  (count_calls is_order (snd (receiveMessage a m msg o)) +
     budget (fst (receiveMessage a m msg o)) (mkt_closed m) <= budget a closed)%nat /\
  settled (fst (receiveMessage a m msg o)) (mkt_closed m).
Proof.
  intros [Hf Hs] Hc. unfold receiveMessage.
  assert (Same : (count_calls is_order (@nil action) + budget a (mkt_closed m)
                    <= budget a closed)%nat /\ settled a (mkt_closed m)).
  { unfold settled, budget. split.
    - destruct (cancel a), (state a), closed, (mkt_closed m); cbn in *;
        try lia; discriminate.
    - split; [exact Hf|]. intros C S. specialize (Hs C S). subst closed.
      exact Hc. }
  destruct (state a) eqn:St; try exact Same.
  destruct (String.eqb msg "QUERY_SPREAD"); [|exact Same].
  destruct (mkt_closed m) eqn:Cl; [exact Same|].
  assert (closed = false) by (destruct closed; [discriminate|reflexivity]).
  subst closed.
  assert (Hcan : cancel a = true).
  { destruct (cancel a) eqn:C; [reflexivity|]. specialize (Hs eq_refl eq_refl).
    discriminate. }
  pose proof (count_placeOrder a o) as N.
  pose proof (fold_place_pair_fields (updateEstimates o) (range 1 100) a []) as F.
  unfold placeOrder in N |- *.
  destruct (fold_left _ _ _) as [a1 acts1]. cbn in N, F |- *.
  destruct F as (F1 & F2 & F3).
  unfold budget, settled. cbn. rewrite F2, Hcan, N, St. cbn.
  split; [lia|]. split; [congruence|]. intros; discriminate.
Qed.

Lemma run_budget (evs : list event) :
  forall (a a' : agent) (acts : list action) (closed : bool),
    settled a closed -> closed_for_good_from closed evs = true ->
    run a evs = Ok (a', acts) ->
    (count_calls is_order acts <= budget a closed)%nat.
Proof.
  induction evs as [|e evs IH]; intros a a' acts closed Hs Hc E.
  - cbn in E. inversion E. cbn. lia.
  - cbn [closed_for_good_from] in Hc. apply andb_true_iff in Hc.
    destruct Hc as [Hc Hrest].
    cbn [run deliver ladder_agent] in E.
    destruct e as [t i|t msg i]; cbn [handle bind inputs_of] in E, Hc, Hrest.
    + destruct (wakeup_budget a t (view i) closed Hs Hc) as (N & B & S').
      destruct (wakeup a t (view i)) as [a1 acts1]. cbn [fst snd] in N, B, S'.
      destruct (run a1 evs) as [[a2 acts2]|] eqn:R; [|discriminate].
      cbn [bind] in E. inversion E. subst.
      rewrite count_calls_app, N.
      specialize (IH a1 a' acts2 _ S' Hrest R). lia.
    + destruct (receive_budget a (view i) msg (oracle_price i) closed Hs Hc)
        as (B & S').
      destruct (receiveMessage a (view i) msg (oracle_price i)) as [a1 acts1].
      cbn [fst snd] in B, S'.
      destruct (run a1 evs) as [[a2 acts2]|] eqn:R; [|discriminate].
      cbn [bind] in E. inversion E. subst.
      rewrite count_calls_app.
      specialize (IH a1 a' acts2 _ S' Hrest R). lia.
Qed.

(** The ladder is placed at most once: in an execution of the constructed
    agent in which the market, once closed, stays closed, no more than 198
    orders are placed in all. *)
Theorem ladder_placed_at_most_once (exact : bool) (evs : list event)
    (a' : agent) (acts : list action) :
  closed_for_good evs = true ->
  run (init exact) evs = Ok (a', acts) ->
  (count_calls is_order acts <= 198)%nat.
Proof.
  intros Hc E.
  apply (run_budget evs (init exact) a' acts false); [|exact Hc|exact E].
  split; [reflexivity|]. cbn. discriminate.
Qed.

Lemma ladder_placed_at_most_once_witness :
  let evs := [Wakeup 0 Scenario.calm; Message 5 "QUERY_SPREAD" Scenario.calm;
              Wakeup 10 Scenario.calm; Message 15 "QUERY_SPREAD" Scenario.calm] in
  closed_for_good evs = true /\
  exists a' acts,
    run Scenario.ladder evs = Ok (a', acts) /\
    count_calls is_order acts = 198%nat /\
    (count_calls is_order acts <= 198)%nat.
Proof.
  intros evs. split; [reflexivity|].
  destruct (run Scenario.ladder evs) as [[a' acts]|] eqn:E;
    [|vm_compute in E; discriminate].
  exists a', acts. split; [reflexivity|]. split.
  - vm_compute in E. inversion E. reflexivity.
  - apply (ladder_placed_at_most_once true evs a' acts); [reflexivity|exact E].
Defined.

(** At a delivery that sees the market closed the ladder places nothing:
    an execution made of such deliveries contains no order. *)
Lemma ladder_idle_when_closed (evs : list event) :
  forall (a a' : agent) (acts : list action),
    forallb (fun e => mkt_closed (view (inputs_of e))) evs = true ->
    run a evs = Ok (a', acts) ->
    no_order acts = true.
Proof.
  induction evs as [|e evs IH]; intros a a' acts Hc E.
  - cbn in E. inversion E. reflexivity.
  - cbn [forallb] in Hc. apply andb_true_iff in Hc. destruct Hc as [Hc Hrest].
    cbn [run deliver ladder_agent] in E.
    assert (Step : forall r, handle a e = Ok r -> no_order (snd r) = true).
    { destruct e as [t i|t msg i]; cbn [handle inputs_of] in Hc |- *;
        intros r Er; inversion Er; subst; clear Er.
      - unfold wakeup, getWakeFrequency, cancelOrders.
        destruct a as [f c fr sr tr st os ex]. destruct (view i) as [mo mc mcd hcp].
        cbn in Hc. subst mcd.
        destruct mo, mc, hcp, tr, fr, sr, c, f, ex; reflexivity.
      - unfold receiveMessage. rewrite Hc.
        destruct (state a); try reflexivity.
        destruct (String.eqb msg "QUERY_SPREAD"); reflexivity. }
    destruct (handle a e) as [[a1 acts1]|] eqn:H1; [|discriminate].
    cbn [bind] in E.
    destruct (run a1 evs) as [[a2 acts2]|] eqn:R; [|discriminate].
    cbn [bind] in E. inversion E. subst.
    unfold no_order. rewrite forallb_app.
    specialize (Step _ eq_refl). cbn in Step. unfold no_order in Step.
    rewrite Step. exact (IH a1 a' acts2 Hrest R).
Qed.

End LadderRuns.

(** ** Rounding *)

Module RoundingFacts.
Import Numeric.

Lemma round_half_even_cases (q : Q) :
  round_half_even q = Qfloor q \/ round_half_even q = Qfloor q + 1.
Proof.
  unfold round_half_even. destruct (Qcompare _ _); auto.
  destruct (Z.even _); auto.
Qed.

Lemma round_half_even_nonneg (q : Q) : (0 <= q)%Q -> 0 <= round_half_even q.
Proof.
  intros H. apply Qfloor_resp_le in H. change (Qfloor 0) with 0 in H.
  destruct (round_half_even_cases q) as [-> | ->]; lia.
Qed.

Lemma round_half_even_ge (q : Q) (z : Z) :
  (inject_Z z <= q)%Q -> z <= round_half_even q.
Proof.
  intros H. apply Qfloor_resp_le in H. rewrite Qfloor_Z in H.
  destruct (round_half_even_cases q) as [-> | ->]; lia.
Qed.

(** The rounded value is within one half of the argument. *)
Lemma round_half_even_close (q : Q) :
  (q - (1 # 2) <= inject_Z (round_half_even q) <= q + (1 # 2))%Q.
Proof.
  unfold round_half_even.
  pose proof (Qfloor_le q) as Lo. pose proof (Qlt_floor q) as Hi.
  rewrite inject_Z_plus in Hi. change (inject_Z 1) with 1%Q in Hi.
  set (f := Qfloor q) in *. set (fz := inject_Z f) in *.
  destruct (Qcompare_spec (q - fz) (1 # 2)) as [E|L|G].
  - destruct (Z.even f).
    + fold fz. split; lra.
    + rewrite inject_Z_plus. fold fz. change (inject_Z 1) with 1%Q. split; lra.
  - fold fz. split; lra.
  - rewrite inject_Z_plus. fold fz. change (inject_Z 1) with 1%Q. split; lra.
Qed.

Lemma round_half_even_comp (q q' : Q) :
  (q == q')%Q -> round_half_even q = round_half_even q'.
Proof.
  intros H. unfold round_half_even. cbv zeta.
  rewrite (Qfloor_comp q q' H).
  assert (E : Qcompare (q - inject_Z (Qfloor q')) (1 # 2) =
              Qcompare (q' - inject_Z (Qfloor q')) (1 # 2)).
  { apply Qcompare_comp; [|reflexivity].
    apply Qplus_comp; [exact H|reflexivity]. }
  rewrite E. reflexivity.
Qed.

(** [updateEstimates] of the ladder and of the directional agent: the
    estimate is a whole number within one half of the oracle's answer, and
    the answer itself when that is whole. *)
Theorem estimate_is_nearest_integer (oracle_price : Q) (z : Z) :
  Ladder.updateEstimates oracle_price = ZI.updateEstimates oracle_price /\
  (exists n, ZI.updateEstimates oracle_price = inject_Z n /\
     (oracle_price - (1 # 2) <= inject_Z n <= oracle_price + (1 # 2))%Q) /\
  ZI.updateEstimates (inject_Z z) = inject_Z z.
Proof.
  split; [reflexivity|]. split.
  - exists (np_round oracle_price). split; [reflexivity|].
    apply round_half_even_close.
  - unfold ZI.updateEstimates, np_round.
    rewrite NumericFacts.round_half_even_inject. reflexivity.
Qed.

End RoundingFacts.

(** ** Depth-power sizing *)

Module SizingFacts.
Import Numeric.

Lemma pow20_le_inv (x y : Z) : 0 <= y -> x ^ 20 <= y ^ 20 -> x <= y.
Proof.
  intros Hy H. destruct (Z.le_gt_cases x y) as [L|G]; [exact L|].
  exfalso. assert (y ^ 20 < x ^ 20) by (apply Z.pow_lt_mono_l; lia). lia.
Qed.

Lemma pow20_lt_inv (x y : Z) : 0 <= x -> x ^ 20 < y ^ 20 -> 0 <= y -> x < y.
Proof.
  intros Hx H Hy. destruct (Z.lt_ge_cases x y) as [L|G]; [exact L|].
  exfalso. assert (y ^ 20 <= x ^ 20) by (apply Z.pow_le_mono_l; lia). lia.
Qed.

Lemma depth_size_nonneg (d : N) : 0 <= depth_size d.
Proof. unfold depth_size. apply N2Z.is_nonneg. Qed.

Lemma depth_size_le_depth (d : N) : depth_size d <= Z.of_N d.
Proof.
  destruct (N.eq_dec d 0) as [->|Hd]; [reflexivity|].
  assert (H1 : (1 <= d)%N) by lia.
  destruct (NumericFacts.depth_size_nearest d H1) as [Lo _].
  pose proof (NumericFacts.depth_size_positive d H1) as Hp.
  set (k := depth_size d) in *. set (z := Z.of_N d).
  assert (Hz : 1 <= z) by (unfold z; lia).
  assert (Hle : (2 * k - 1) ^ 20 <= (2 * z) ^ 20).
  { eapply Z.le_trans; [exact Lo|]. fold z.
    rewrite Z.pow_mul_l. apply Z.mul_le_mono_nonneg_l.
    - apply Z.pow_nonneg. clear; lia.
    - apply Z.pow_le_mono_r; clear - Hz; lia. }
  apply pow20_le_inv in Hle; [|clear - Hz; lia].
  clear - Hle. lia.
Qed.

Lemma depth_size_monotone (d d' : N) :
  (d <= d')%N -> depth_size d <= depth_size d'.
Proof.
  intros Hdd. destruct (N.eq_dec d 0) as [->|Hd].
  - change (depth_size 0) with 0. apply depth_size_nonneg.
  - assert (H1 : (1 <= d)%N) by lia. assert (H1' : (1 <= d')%N) by lia.
    destruct (NumericFacts.depth_size_nearest d H1) as [Lo _].
    destruct (NumericFacts.depth_size_nearest d' H1') as [_ Hi'].
    pose proof (NumericFacts.depth_size_positive d H1) as Hp.
    pose proof (NumericFacts.depth_size_positive d' H1') as Hp'.
    set (k := depth_size d) in *. set (k' := depth_size d') in *.
    assert (Hlt : (2 * k - 1) ^ 20 < (2 * k' + 1) ^ 20).
    { eapply Z.le_lt_trans; [exact Lo|].
      eapply Z.le_lt_trans; [|exact Hi'].
      apply Z.mul_le_mono_nonneg_l; [apply Z.pow_nonneg; clear; lia|].
      apply Z.pow_le_mono_l. clear - Hdd. lia. }
    apply pow20_lt_inv in Hlt; [|clear - Hp; lia|clear - Hp'; lia].
    clear - Hlt. lia.
Qed.

(** [round(d ** 0.35)]: at least one on a positive volume, never more than
    the volume, and no smaller on a deeper book. *)
Theorem depth_size_bounds (d d' : N) :
  (1 <= d)%N -> (d <= d')%N ->
  1 <= depth_size d <= Z.of_N d /\ depth_size d <= depth_size d'.
Proof.
  intros H1 Hdd. split; [split|].
  - apply NumericFacts.depth_size_positive, H1.
  - apply depth_size_le_depth.
  - apply depth_size_monotone, Hdd.
Qed.

Lemma depth_size_bounds_witness :
  (1 <= 7)%N /\ (7 <= 1000)%N /\ depth_size 7 = 2 /\ depth_size 1000 = 11 /\
  (1 <= depth_size 7 <= Z.of_N 7 /\ depth_size 7 <= depth_size 1000).
Proof.
  split; [lia|]. split; [lia|]. split; [vm_compute; reflexivity|].
  split; [vm_compute; reflexivity|].
  apply (depth_size_bounds 7 1000); lia.
Defined.



(** A market order of the directional agent asks for at least one unit and
    for no more than rests at the opposing best quote, when both volumes
    are positive. *)
Theorem market_order_within_depth (a a' : ZI.agent) (q : snapshot) (o : Q)
    (acts : list action) (n : Z) (buy : bool) :
  (1 <= bidsize q)%N -> (1 <= asksize q)%N ->
  ZI.placeOrder a q o = Ok (a', acts) ->
  In (PlaceMarketOrder n buy) acts ->
  1 <= n <= Z.of_N (if buy then asksize q else bidsize q).
Proof.
  intros Hb Hk. unfold ZI.placeOrder.
  destruct (bid q), (ask q); try discriminate.
  destruct (Qcompare _ _); intros E; inversion E; subst; cbn;
    intros Hx; try contradiction; destruct Hx as [Hx|[]];
    inversion Hx; subst; split;
    try (apply NumericFacts.depth_size_positive; assumption);
    apply depth_size_le_depth.
Qed.

Lemma market_order_within_depth_witness :
  1 <= 2 <= Z.of_N 7.
Proof.
  apply (market_order_within_depth Scenario.zi
           (ZI.set_order_size (ZI.set_counts Scenario.zi 1 1) 2)
           (Scenario.book (Some 99) 5 (Some 101) 7) 105
           [PlaceMarketOrder 2 true] 2 true).
  - cbn. lia.
  - cbn. lia.
  - vm_compute. reflexivity.
  - left. reflexivity.
Defined.

End SizingFacts.

(** ** The stand-alone sizer *)

Module SizerFacts.

Lemma tens_at_least_70 (c : Z) :
  70 <= c -> 70 <= 10 * Numeric.round_half_even (inject_Z c / 10).
Proof.
  intros Hc.
  assert (7 <= Numeric.round_half_even (inject_Z c / 10)).
  { apply RoundingFacts.round_half_even_ge.
    apply Qle_shift_div_l; [reflexivity|].
    unfold Qle. cbn. lia. }
  lia.
Qed.



End SizerFacts.

(** ** Executions of the directional agent *)

Module ZIRuns.
Import ZI.

Lemma zi_placeOrder_effect (a a' : agent) (q : snapshot) (o : Q) (acts : list action) :
  placeOrder a q o = Ok (a', acts) ->
  state a' = state a /\
  (count_calls is_order acts <= 1)%nat /\
  count_calls is_spread_request acts = 0%nat /\
  order_count a' = order_count a + Z.of_nat (count_calls is_order acts) /\
  buy_order_count a' = buy_order_count a + Z.of_nat (count_calls is_buy acts).
Proof.
  unfold placeOrder. destruct (bid q), (ask q); try discriminate.
  destruct (Qcompare _ _); intros E; inversion E; subst; cbn;
    repeat split; lia.
Qed.

Lemma zi_handle_effect (a a' : agent) (e : event) (acts : list action) :
  handle a e = Ok (a', acts) ->
  (count_calls is_order acts + waiting (state a') <=
     count_calls is_spread_request acts + waiting (state a))%nat /\
  order_count a' = order_count a + Z.of_nat (count_calls is_order acts) /\
  buy_order_count a' = buy_order_count a + Z.of_nat (count_calls is_buy acts).
Proof.
  destruct e as [t i|t msg i]; cbn [handle].
  - intros E. ok_components E.
    unfold wakeup, getWakeFrequency, modifyWakeFrequency, Random.exponential,
      Random.draw, waiting.
    destruct a as [la tr st os oc bc rs ex]. destruct (view i) as [mo mc mcd hcp].
    destruct mo, mc, mcd, hcp, tr, ex, st; cbn; repeat split; lia.
  - unfold receiveMessage.
    assert (Same : forall r : agent * list action,
      Ok (a, @nil action) = Ok r ->
      (count_calls is_order (snd r) + waiting (state (fst r)) <=
         count_calls is_spread_request (snd r) + waiting (state a))%nat /\
      order_count (fst r) = order_count a + Z.of_nat (count_calls is_order (snd r)) /\
      buy_order_count (fst r) =
        buy_order_count a + Z.of_nat (count_calls is_buy (snd r))).
    { intros r E. inversion E. subst. cbn. repeat split; lia. }
    destruct (state a) eqn:St; try (intros E; exact (Same _ E)).
    destruct (String.eqb msg "QUERY_SPREAD"); [|intros E; exact (Same _ E)].
    destruct (mkt_closed (view i)); [intros E; exact (Same _ E)|].
    clear Same.
    destruct (placeOrder a (quotes i) (oracle_price i)) as [[a1 acts1]|] eqn:P;
      [|discriminate].
    cbn [bind]. intros E. inversion E. subst. clear E.
    destruct (zi_placeOrder_effect _ _ _ _ _ P) as (S1 & N1 & R1 & C1 & B1).
    unfold waiting. cbn. rewrite R1.
    repeat split; try assumption. lia.
Qed.

Lemma zi_run_effect (evs : list event) :
  forall (a a' : agent) (acts : list action),
    run a evs = Ok (a', acts) ->
    (count_calls is_order acts + waiting (state a') <=
       count_calls is_spread_request acts + waiting (state a))%nat /\
    order_count a' = order_count a + Z.of_nat (count_calls is_order acts) /\
    buy_order_count a' = buy_order_count a + Z.of_nat (count_calls is_buy acts).
Proof.
  induction evs as [|e evs IH]; intros a a' acts E.
  - cbn in E. inversion E. subst. cbn. repeat split; lia.
  - cbn [run deliver zi_agent] in E.
    destruct (handle a e) as [[a1 acts1]|] eqn:H1; [|discriminate].
    cbn [bind] in E.
    destruct (run a1 evs) as [[a2 acts2]|] eqn:R; [|discriminate].
    cbn [bind] in E. inversion E. subst. clear E.
    destruct (zi_handle_effect _ _ _ _ H1) as (W1 & C1 & B1).
    destruct (IH _ _ _ R) as (W2 & C2 & B2).
    rewrite !count_calls_app. repeat split; lia.
Qed.

(** The counters follow the calls: along any execution [order_count]
    grows by the number of market orders placed and [buy_order_count] by
    the number of buys among them, so buys never outnumber orders. *)
Theorem zi_counters_match_orders (evs : list event) (a a' : agent)
    (acts : list action) :
  run a evs = Ok (a', acts) ->
  order_count a' = order_count a + Z.of_nat (count_calls is_order acts) /\
  buy_order_count a' = buy_order_count a + Z.of_nat (count_calls is_buy acts) /\
  (count_calls is_buy acts <= count_calls is_order acts)%nat.
Proof.
  intros E. destruct (zi_run_effect evs _ _ _ E) as (_ & C & B).
  split; [exact C|]. split; [exact B|].
  unfold count_calls. clear. induction acts as [|x acts IH]; [cbn; lia|].
  cbn [filter]. destruct x; cbn; try exact IH; try lia.
  - destruct is_buy_order; cbn; lia.
  - destruct is_buy_order; cbn; lia.
Qed.

Lemma zi_counters_match_orders_witness :
  let evs := [Wakeup 0 Scenario.calm;
              Message 5 "QUERY_SPREAD" (Scenario.during_trading (quotes Scenario.calm) 105);
              Wakeup 200 Scenario.calm;
              Message 205 "QUERY_SPREAD" (Scenario.during_trading (quotes Scenario.calm) 95)] in
  exists a' acts,
    run Scenario.zi evs = Ok (a', acts) /\
    order_count a' = 2 /\ buy_order_count a' = 1 /\
    order_count a' = order_count Scenario.zi + Z.of_nat (count_calls is_order acts).
Proof.
  intros evs.
  destruct (run Scenario.zi evs) as [[a' acts]|] eqn:E;
    [|vm_compute in E; discriminate].
  exists a', acts. split; [reflexivity|].
  pose proof (proj1 (zi_counters_match_orders evs Scenario.zi a' acts E)) as H.
  vm_compute in E. inversion E. subst.
  split; [reflexivity|]. split; [reflexivity|]. exact H.
Defined.

(** At a delivery that sees the market closed the directional agent
    places nothing. *)
Lemma zi_idle_when_closed (evs : list event) :
  forall (a a' : agent) (acts : list action),
    forallb (fun e => mkt_closed (view (inputs_of e))) evs = true ->
    run a evs = Ok (a', acts) ->
    no_order acts = true.
Proof.
  induction evs as [|e evs IH]; intros a a' acts Hc E.
  - cbn in E. inversion E. reflexivity.
  - cbn [forallb] in Hc. apply andb_true_iff in Hc. destruct Hc as [Hc Hrest].
    cbn [run deliver zi_agent] in E.
    assert (Step : forall r, handle a e = Ok r -> no_order (snd r) = true).
    { destruct e as [t i|t msg i]; cbn [handle inputs_of] in Hc |- *;
        intros r Er.
      - inversion Er; subst; clear Er.
        unfold wakeup, getWakeFrequency, modifyWakeFrequency,
          Random.exponential, Random.draw.
        destruct a as [la tr st os oc bc rs ex]. destruct (view i) as [mo mc mcd hcp].
        cbn in Hc. subst mcd.
        destruct mo, mc, hcp, tr, ex; reflexivity.
      - unfold receiveMessage in Er. rewrite Hc in Er.
        destruct (state a); try (inversion Er; reflexivity).
        destruct (String.eqb msg "QUERY_SPREAD"); inversion Er; reflexivity. }
    destruct (handle a e) as [[a1 acts1]|] eqn:H1; [|discriminate].
    cbn [bind] in E.
    destruct (run a1 evs) as [[a2 acts2]|] eqn:R; [|discriminate].
    cbn [bind] in E. inversion E. subst.
    unfold no_order. rewrite forallb_app.
    specialize (Step _ eq_refl). cbn in Step. unfold no_order in Step.
    rewrite Step. exact (IH a1 a' acts2 Hrest R).
Qed.

End ZIRuns.

(** After the close neither the ladder nor the directional agent trades: an
    execution whose deliveries all see the market closed contains no
    order, whatever state it starts from. *)
Theorem idle_when_closed (evs : list event) :
  forallb (fun e => mkt_closed (view (inputs_of e))) evs = true ->
  (forall (a a' : Ladder.agent) acts,
     run a evs = Ok (a', acts) -> no_order acts = true) /\
  (forall (a a' : ZI.agent) acts,
     run a evs = Ok (a', acts) -> no_order acts = true).
Proof.
  intros Hc. split; intros a a' acts E.
  - eapply LadderRuns.ladder_idle_when_closed; eauto.
  - eapply ZIRuns.zi_idle_when_closed; eauto.
Qed.

Lemma idle_when_closed_witness :
  let closing := {| view := {| mkt_open := true; mkt_close := true;
                               mkt_closed := true; has_close_price := false |};
                    can_trade := false; quotes := quotes Scenario.calm;
                    oracle_price := 105 |} in
  let evs := [Wakeup 0 closing; Message 5 "QUERY_SPREAD" closing] in
  forallb (fun e => mkt_closed (view (inputs_of e))) evs = true /\
  exists a' acts,
    run (ZI.set_state Scenario.zi AWAITING_SPREAD) evs = Ok (a', acts) /\
    acts = [SetWakeup 100; GetCurrentSpread] /\ no_order acts = true.
Proof.
  intros closing evs. split; [reflexivity|].
  destruct (run (ZI.set_state Scenario.zi AWAITING_SPREAD) evs) as [[a' acts]|] eqn:E;
    [|vm_compute in E; discriminate].
  exists a', acts. split; [reflexivity|].
  pose proof (proj2 (idle_when_closed evs eq_refl) _ a' acts E) as H.
  vm_compute in E. inversion E. subst. split; [reflexivity|exact H].
Defined.

(** ** Wake times of the stochastic policy *)

(** With a positive arrival rate and non-negative exponential variates,
    the directional and the momentum agent never schedule a wakeup before
    the current time. *)
Theorem stochastic_wake_not_in_past (t x : Z) :
  (forall (a : ZI.agent) (m : market),
     (0 < ZI.lambda_a a)%Q ->
     (forall n, 0 <= Random.variates (ZI.random_state a) n)%Q ->
     In (SetWakeup x) (snd (ZI.wakeup a t m)) -> t <= x) /\
  (forall (a a' : Momentum.agent) (msg : string) (q : snapshot) acts,
     (0 < Momentum.lambda_a a)%Q ->
     (forall n, 0 <= Random.variates (Momentum.random_state a) n)%Q ->
     Momentum.receiveMessage a t msg q = Ok (a', acts) ->
     In (SetWakeup x) acts -> t <= x).
Proof.
  assert (Delay : forall (rate : Q) (rs : Random.RandomState),
    (0 < rate)%Q -> (forall n, 0 <= Random.variates rs n)%Q ->
    0 <= Numeric.py_round (1 / rate * Random.variates rs (Random.cursor rs))).
  { intros rate rs Hr Hv.
    apply RoundingFacts.round_half_even_nonneg.
    apply Qmult_le_0_compat; [|apply Hv].
    unfold Qdiv. rewrite Qmult_1_l. apply Qlt_le_weak, Qinv_lt_0_compat, Hr. }
  split.
  - intros a m Hr Hv. specialize (Delay _ _ Hr Hv).
    unfold ZI.wakeup, ZI.getWakeFrequency, ZI.modifyWakeFrequency,
      Random.exponential, Random.draw.
    destruct a as [la tr st os oc bc rs ex]. destruct m as [mo mc mcd hcp].
    cbn [ZI.lambda_a ZI.random_state] in Delay.
    set (d := Numeric.py_round _) in Delay.
    destruct mo, mc, mcd, hcp, tr, ex; cbn; fold d; intros H;
      repeat (destruct H as [H|H]; [inversion H; lia|]); try contradiction;
      try discriminate.
  - intros a a' msg q acts Hr Hv E Hin.
    unfold Momentum.receiveMessage in E.
    destruct (_ && _); [|inversion E; subst; contradiction].
    destruct (Momentum.observe _ _) as [[a1 orders]|] eqn:O; [|discriminate].
    cbn [bind] in E.
    assert (Same : Momentum.lambda_a a1 = Momentum.lambda_a a /\
                   Momentum.random_state a1 = Momentum.random_state a).
    { clear - O. unfold Momentum.observe in O.
      destruct (bid q), (ask q); try (inversion O; subst; split; reflexivity).
      destruct (_ && _); [|inversion O; subst; split; reflexivity].
      destruct (_ <? _)%nat; [|inversion O; subst; split; reflexivity].
      unfold Momentum.crossover in O.
      destruct (bind (Momentum.ma _ _) _) as [s|]; [|discriminate].
      cbn [bind] in O.
      destruct (bind (Momentum.ma _ _) _) as [l|]; [|discriminate].
      cbn [bind] in O.
      destruct (_ && _); [|inversion O; subst; split; reflexivity].
      destruct (Qltb _ _); [inversion O; subst; split; reflexivity|].
      destruct (Qltb _ _); inversion O; subst; split; reflexivity. }
    destruct Same as [Sl Sr].
    unfold Momentum.getWakeFrequency, Random.exponential, Random.draw in E.
    rewrite Sl, Sr in E.
    specialize (Delay _ _ Hr Hv).
    inversion E. subst. clear E.
    apply in_app_or in Hin. destruct Hin as [Hin|[Hin|[]]].
    + apply momentum_observe_no_wakeup in O.
      exfalso. assert (Hf : In (SetWakeup x) (filter is_set_wakeup orders))
        by (apply filter_In; split; [exact Hin|reflexivity]).
      rewrite O in Hf. contradiction.
    + inversion Hin. lia.
Qed.

Lemma stochastic_wake_not_in_past_witness :
  In (SetWakeup 107) (snd (ZI.wakeup Scenario.zi 7 trading_hours)) /\ 7 <= 107.
Proof.
  assert (H : In (SetWakeup 107) (snd (ZI.wakeup Scenario.zi 7 trading_hours)))
    by (left; vm_compute; reflexivity).
  split; [exact H|].
  apply (proj1 (stochastic_wake_not_in_past 7 107) Scenario.zi trading_hours).
  - reflexivity.
  - intros n. cbn. unfold Qle. cbn. lia.
  - exact H.
Defined.

(** ** The momentum agent's decision *)

Module MomentumDecision.
Import Momentum.

Lemma Qltb_true (x y : Q) : Qltb x y = true <-> (x < y)%Q.
Proof.
  unfold Qltb. destruct (Qcompare_spec x y) as [E|L|G]; split; intros H;
    try reflexivity; try discriminate; try assumption.
  - rewrite E in H. exfalso. revert H. apply Qlt_irrefl.
  - exfalso. apply (Qlt_irrefl x). eapply Qlt_trans; eauto.
Qed.

Lemma last_entry_value (x : list Q) (v : Q) :
  last_entry x = Ok v -> v = nth (List.length x - 1) x 0%Q.
Proof.
  unfold last_entry. destruct (rev x) as [|u r] eqn:E; [discriminate|].
  intros H. inversion H. subst u.
  assert (Ex : x = rev r ++ [v]).
  { rewrite <- (rev_involutive x), E. reflexivity. }
  rewrite Ex, last_length. replace (S (List.length (rev r)) - 1)%nat
    with (List.length (rev r)) by lia.
  rewrite nth_middle. reflexivity.
Qed.

(** The last entry of [ma l n] is the mean of the [n] most recent
    samples. *)
Lemma ma_last_value (l : list Q) (n : nat) :
  (1 <= n)%nat -> (n <= List.length l)%nat ->
  exists v, bind (ma l n) last_entry = Ok v /\
            (v == window_mean l n (List.length l - n))%Q.
Proof.
  intros H1 Hn.
  destruct (MomentumFacts.windowed_sums l n H1 Hn) as (d & E & L & N).
  destruct (MomentumFacts.ma_last_exists l n H1 Hn) as (v & Ev).
  exists v. split; [exact Ev|].
  unfold ma in Ev. rewrite E in Ev. cbn [bind] in Ev.
  apply last_entry_value in Ev.
  set (f := fun x : Q => (x / inject_Z (Z.of_nat n))%Q) in *.
  assert (Lr : List.length (map f (skipn (n - 1) (firstn n (cumsum l) ++ d))) =
               (List.length l - n + 1)%nat)
    by (rewrite length_map, length_skipn, L; lia).
  rewrite Lr in Ev.
  rewrite (nth_indep _ 0%Q (f 0%Q)) in Ev by (rewrite Lr; lia).
  rewrite map_nth, nth_skipn in Ev. rewrite Ev. unfold f, window_mean.
  replace (n - 1 + (List.length l - n + 1 - 1))%nat
    with (n - 1 + (List.length l - n))%nat by lia.
  rewrite N by lia. reflexivity.
Qed.


Lemma ma_too_short (l : list Q) (n : nat) :
  (List.length l < n)%nat -> ma l n = Ok [].
Proof.
  intros H. unfold ma, cumsum.
  pose proof (MomentumFacts.length_cumsum_from 0 l) as L.
  set (ret := cumsum_from 0 l) in *.
  rewrite (skipn_all2 ret) by lia.
  assert (E : drop_last n ret = []).
  { destruct n; [lia|]. cbn [drop_last].
    replace (List.length ret - S n)%nat with 0%nat by lia. reflexivity. }
  rewrite E. cbn [array_sub]. rewrite app_nil_r.
  rewrite skipn_all2; [reflexivity|].
  rewrite length_firstn. lia.
Qed.

(** A short window longer than the long one cannot be averaged: when the
    window is full, the cycle with both quotes present raises IndexError. *)
Theorem short_longer_than_long_raises (a : agent) (t b k : Z) (q : snapshot) :
  state a = AWAITING_SPREAD ->
  bid q = Some b -> ask q = Some k -> b <> 0 -> k <> 0 ->
  List.length (mid_list a) = long_duration a ->
  (long_duration a < short_duration a)%nat ->
  receiveMessage a t "QUERY_SPREAD" q = Raise IndexError.
Proof.
  intros St Hb Hk Nb Nk Hl Hs. unfold receiveMessage. rewrite St.
  cbn [phase_eqb andb]. change (String.eqb "QUERY_SPREAD" "QUERY_SPREAD") with true.
  cbv iota. unfold observe. rewrite Hb, Hk. cbn [truthy].
  destruct (Z.eqb_spec b 0); [contradiction|].
  destruct (Z.eqb_spec k 0); [contradiction|]. cbn [negb andb].
  cbn [long_duration mid_list set_mid_list set_vols].
  destruct (Nat.ltb_spec (long_duration a)
              (List.length (mid_list a ++ [(inject_Z (b + k) / 2)%Q]))) as [_|Hn];
    [|rewrite last_length in Hn; lia].
  unfold crossover. cbn [mid_list short_duration set_mid_list set_vols].
  rewrite ma_too_short; [reflexivity|].
  rewrite length_tl, last_length. lia.
Qed.

Lemma short_longer_than_long_raises_witness :
  let a := Momentum.set_state
             (Momentum.init 50 100 (5 # 100) (Scenario.stream (1 # 2)) 2 0 0)
             AWAITING_SPREAD in
  receiveMessage a 0 "QUERY_SPREAD" (quotes Scenario.calm) = Raise IndexError.
Proof.
  intros a.
  apply (short_longer_than_long_raises a 0 99 101 (quotes Scenario.calm));
    try reflexivity; try discriminate. cbn. lia.
Defined.


End MomentumDecision.

(** ** Executions of the momentum agent *)

Module MomentumRuns.
Import Momentum.

Lemma observe_counts (a a' : agent) (q : snapshot) (acts : list action) :
  observe a q = Ok (a', acts) ->
  (count_calls is_order acts <= 1)%nat /\
  count_calls is_spread_request acts = 0%nat.
Proof.
  unfold observe.
  destruct (bid q), (ask q); try (intros E; inversion E; cbn; lia).
  destruct (_ && _); [|intros E; inversion E; cbn; lia].
  destruct (_ <? _)%nat; [|intros E; inversion E; cbn; lia].
  unfold crossover.
  destruct (bind (ma _ _) _) as [s|]; [|discriminate]. cbn [bind].
  destruct (bind (ma _ _) _) as [l|]; [|discriminate]. cbn [bind].
  destruct (_ && _); [|intros E; inversion E; cbn; lia].
  destruct (Qltb _ _); [intros E; inversion E; cbn; lia|].
  destruct (Qltb _ _); intros E; inversion E; cbn; lia.
Qed.

Lemma handle_counts (a a' : agent) (e : event) (acts : list action) :
  handle a e = Ok (a', acts) ->
  (count_calls is_order acts + waiting (state a') <=
     count_calls is_spread_request acts + waiting (state a))%nat.
Proof.
  destruct e as [t i|t msg i]; cbn [handle].
  - intros E. ok_components E. unfold wakeup, waiting.
    destruct (negb (can_trade i)); cbn; [lia|].
    destruct (phase_eqb (state a) AWAITING_SPREAD); lia.
  - unfold receiveMessage.
    destruct (phase_eqb (state a) AWAITING_SPREAD) eqn:P; cbn [andb];
      [|intros E; inversion E; subst; cbn; lia].
    destruct (String.eqb msg "QUERY_SPREAD");
      [|intros E; inversion E; subst; cbn; lia].
    destruct (observe _ _) as [[a1 orders]|] eqn:O; [|discriminate].
    cbn [bind]. destruct (getWakeFrequency a1) as [wf a2].
    intros E. inversion E. subst. clear E.
    destruct (observe_counts _ _ _ _ O) as [N R].
    rewrite !count_calls_app, R. unfold waiting. rewrite P. cbn. lia.
Qed.

Lemma run_counts (evs : list event) :
  forall (a a' : agent) (acts : list action),
    run a evs = Ok (a', acts) ->
    (count_calls is_order acts + waiting (state a') <=
       count_calls is_spread_request acts + waiting (state a))%nat.
Proof.
  induction evs as [|e evs IH]; intros a a' acts E.
  - cbn in E. inversion E. subst. cbn. lia.
  - cbn [run deliver momentum_agent] in E.
    destruct (handle a e) as [[a1 acts1]|] eqn:H1; [|discriminate].
    cbn [bind] in E.
    destruct (run a1 evs) as [[a2 acts2]|] eqn:R; [|discriminate].
    cbn [bind] in E. inversion E. subst. clear E.
    pose proof (handle_counts _ _ _ _ H1) as W1.
    pose proof (IH _ _ _ R) as W2.
    rewrite !count_calls_app. lia.
Qed.

End MomentumRuns.

(** Neither the directional nor the momentum agent trades without having
    asked: in an execution of the constructed agent the market orders are
    no more than the spread requests. *)
Theorem orders_answer_requests (evs : list event) :
  (forall rate rs exact (a' : ZI.agent) acts,
     run (ZI.init rate rs exact) evs = Ok (a', acts) ->
     (count_calls is_order acts <= count_calls is_spread_request acts)%nat) /\
  (forall min_size max_size rate rs short long mrg (a' : Momentum.agent) acts,
     run (Momentum.init min_size max_size rate rs short long mrg) evs = Ok (a', acts) ->
     (count_calls is_order acts <= count_calls is_spread_request acts)%nat).
Proof.
  split.
  - intros rate rs exact a' acts E.
    destruct (ZIRuns.zi_run_effect evs _ _ _ E) as (W & _). cbn in W. lia.
  - intros min_size max_size rate rs short long mrg a' acts E.
    pose proof (MomentumRuns.run_counts evs _ _ _ E) as W. cbn in W. lia.
Qed.

Lemma orders_answer_requests_witness :
  let evs := [Wakeup 0 Scenario.calm;
              Message 5 "QUERY_SPREAD" (Scenario.during_trading (quotes Scenario.calm) 105);
              Wakeup 200 Scenario.calm] in
  exists a' acts,
    run Scenario.zi evs = Ok (a', acts) /\
    count_calls is_order acts = 1%nat /\
    count_calls is_spread_request acts = 2%nat /\
    (count_calls is_order acts <= count_calls is_spread_request acts)%nat.
Proof.
  intros evs.
  destruct (run Scenario.zi evs) as [[a' acts]|] eqn:E;
    [|vm_compute in E; discriminate].
  exists a', acts. split; [reflexivity|].
  pose proof (proj1 (orders_answer_requests evs) (5 # 1000)
                (Scenario.stream (1 # 2)) true a' acts E) as H.
  vm_compute in E. inversion E. subst.
  split; [reflexivity|]. split; [reflexivity|]. exact H.
Defined.

(** ** The private values *)

Module PrivateValuesFacts.
Import PrivateValues.

Lemma normal_draws (loc scale : Q) (size : nat) :
  forall rs,
    List.length (fst (normal loc scale size rs)) = size /\
    Random.cursor (snd (normal loc scale size rs)) = (Random.cursor rs + size)%nat /\
    Random.variates (snd (normal loc scale size rs)) = Random.variates rs.
Proof.
  induction size as [|size IH]; intros rs; cbn [normal].
  - cbn. repeat split. lia.
  - unfold Random.draw.
    destruct (IH {| Random.variates := Random.variates rs;
                    Random.cursor := S (Random.cursor rs) |}) as (L & C & V).
    destruct (normal loc scale size _) as [xs rs']. cbn in L, C, V |- *.
    repeat split; [lia|lia|exact V].
Qed.

Lemma insert_desc_perm (x : Z) (l : list Z) :
  Permutation (x :: l) (insert_desc x l).
Proof.
  induction l as [|y l IH]; cbn [insert_desc]; [reflexivity|].
  destruct (y <=? x); [reflexivity|].
  rewrite perm_swap. apply perm_skip, IH.
Qed.

Lemma sorted_desc_perm (l : list Z) : Permutation l (sorted_desc l).
Proof.
  induction l as [|x l IH]; cbn [sorted_desc]; [reflexivity|].
  rewrite <- insert_desc_perm. apply perm_skip, IH.
Qed.

Lemma insert_desc_sorted (x : Z) (l : list Z) :
  Sorted (fun u v => v <= u) l -> Sorted (fun u v => v <= u) (insert_desc x l).
Proof.
  induction l as [|y l IH]; intros S; cbn [insert_desc].
  - repeat constructor.
  - destruct (Z.leb_spec y x) as [Hle|Hgt].
    + constructor; [exact S|]. constructor. exact Hle.
    + apply Sorted_inv in S. destruct S as [S Hd].
      constructor; [apply IH, S|].
      destruct l as [|z l]; cbn [insert_desc].
      * constructor. lia.
      * destruct (z <=? x); constructor; [lia|].
        inversion Hd. assumption.
Qed.

Lemma sorted_desc_sorted (l : list Z) : Sorted (fun u v => v <= u) (sorted_desc l).
Proof.
  induction l as [|x l IH]; cbn [sorted_desc]; [constructor|].
  apply insert_desc_sorted, IH.
Qed.

(** [self.theta]: three values per unit of [q_max], in descending order, a
    rearrangement of the rounded draws; building it advances the agent's
    private generator by exactly that many draws. *)
Theorem theta_is_sorted_ladder (scale : Q) (q_max : nat) (rs : Random.RandomState) :
  let th := fst (theta scale q_max rs) in
  let rs' := snd (theta scale q_max rs) in
  List.length th = (q_max * 3)%nat /\
  Sorted (fun u v => v <= u) th /\
  Permutation (map Numeric.np_round (fst (normal 0 scale (q_max * 3) rs))) th /\
  Random.cursor rs' = (Random.cursor rs + q_max * 3)%nat /\
  Random.variates rs' = Random.variates rs.
Proof.
  unfold theta.
  destruct (normal_draws 0 scale (q_max * 3) rs) as (L & C & V).
  destruct (normal 0 scale (q_max * 3) rs) as [xs rs']. cbn in L, C, V |- *.
  split; [|split; [|split; [|split]]].
  - rewrite <- (Permutation_length (sorted_desc_perm _)), length_map. exact L.
  - apply sorted_desc_sorted.
  - apply sorted_desc_perm.
  - exact C.
  - exact V.
Qed.

End PrivateValuesFacts.
